(** * Keyboard layout SVG generator: a shallow embedding of
    [generate_keyboard_svg.py] and the properties of its rendering pipeline.

    Python values are modelled as follows.
    - [str] is a list of Unicode code points, so that [len], slicing and
      [str.strip] count characters the way Python does.
    - [int] is [Z].
    - [dict] is stdpp's [gmap].
    - A raised exception is the [Err] case of [result]. *)

From Stdlib Require Import ZArith String Ascii DecimalString.
From stdpp Require Import base option list gmap.

Local Open Scope Z_scope.

(** ** Python strings *)

Module Py.

Definition char := N.
Definition str := list char.

(** An ASCII literal of the source, character by character. *)
Definition lit (s : string) : str :=
  map N_of_ascii (list_ascii_of_string s).

(** The same for markup templates, which are full of double quotes: in a
    template literal the character [~] (which no template of the source
    contains) stands for the double quote U+0022. *)
Definition tpl (s : string) : str :=
  map (λ a, let c := N_of_ascii a in if (c =? 126)%N then 34%N else c)
      (list_ascii_of_string s).

Definition dquote : char := 34%N.
Definition em_dash : char := 8212%N.     (* U+2014 *)
Definition bullet : char := 8226%N.      (* U+2022 *)
Definition times_sign : char := 215%N.   (* U+00D7 *)

(** [str(n)] for an [int]. *)
Definition int_str (n : Z) : str :=
  lit (NilZero.string_of_int (Z.to_int n)).

(** [s.startswith(p)] *)
Fixpoint startswith (s p : str) {struct p} : bool :=
  match p, s with
  | [], _ => true
  | _ :: _, [] => false
  | a :: p', b :: s' => bool_decide (a = b) && startswith s' p'
  end.

(** [sub in s] *)
Fixpoint contains (s sub : str) : bool :=
  startswith s sub ||
  match s with
  | [] => false
  | _ :: s' => contains s' sub
  end.

(** [str.isspace] on one character: the code points [str.strip()] removes. *)
Definition isspace (c : char) : bool :=
  ((9 <=? c) && (c <=? 13) || (28 <=? c) && (c <=? 32)
   || (c =? 133) || (c =? 160) || (c =? 5760)
   || (8192 <=? c) && (c <=? 8202)
   || (c =? 8232) || (c =? 8233) || (c =? 8239) || (c =? 8287)
   || (c =? 12288))%N.

Fixpoint lstrip (s : str) : str :=
  match s with
  | [] => []
  | c :: s' => if isspace c then lstrip s' else s
  end.

Definition rstrip (s : str) : str := reverse (lstrip (reverse s)).

(** [s.strip()] *)
Definition strip (s : str) : str := rstrip (lstrip s).

(** [s[n:-1]]: the stop index [-1] is [len(s) - 1], clamped at 0. *)
Definition slice_to_last (n : nat) (s : str) : str :=
  drop n (take (length s - 1) s).

(** [s.split(sep)] for a one-character separator: never an empty list. *)
Fixpoint split (sep : char) (s : str) : list str :=
  match s with
  | [] => [[]]
  | c :: s' =>
      if bool_decide (c = sep) then [] :: split sep s'
      else match split sep s' with
           | p :: ps => (c :: p) :: ps
           | [] => [[c]]
           end
  end.

(** [s.replace(old, new)] for a non-empty [old], as at every call of the
    source: occurrences are found left to right and do not overlap.
    [skip] counts the characters of a match still to be dropped. *)
Fixpoint replace_from (old new : str) (skip : nat) (s : str) : str :=
  match s with
  | [] => []
  | c :: s' =>
      match skip with
      | S k => replace_from old new k s'
      | O =>
          if startswith s old
          then new ++ replace_from old new (length old - 1) s'
          else c :: replace_from old new 0 s'
      end
  end.

Definition replace (old new s : str) : str := replace_from old new 0 s.

(** [sep.join(parts)] *)
Fixpoint join (sep : str) (parts : list str) : str :=
  match parts with
  | [] => []
  | [p] => p
  | p :: ps => p ++ sep ++ join sep ps
  end.

(** [d.get(k, default)] *)
Definition dict_get `{Countable K} {V} (d : gmap K V) (k : K) (default : V) : V :=
  match d !! k with
  | Some v => v
  | None => default
  end.

(** Exceptions the modelled code can raise. *)
Inductive exn :=
  | FileNotFoundError
  | TOMLDecodeError
  | IndexError
  | KeyError
  | OverflowError.

Inductive result (A : Type) :=
  | Ok (a : A)
  | Err (e : exn).
Arguments Ok {A} a.
Arguments Err {A} e.

(** Sequencing: the first exception raised aborts the rest. *)
#[global] Instance result_bind : MBind result := λ A B f m,
  match m with
  | Ok a => f a
  | Err e => Err e
  end.

#[global] Instance result_ret : MRet result := λ A a, Ok a.

End Py.

Import Py.

Arguments lit : simpl never.
Arguments tpl : simpl never.
Arguments int_str : simpl never.
Arguments strip : simpl never.

(** ** The generator *)

Module KeyboardLayoutGenerator.

Definition escape_xml (text : str) : str :=
  replace (lit "'") (lit "&apos;")
    (replace [dquote] (lit "&quot;")
      (replace (lit ">") (lit "&gt;")
        (replace (lit "<") (lit "&lt;")
          (replace (lit "&") (lit "&amp;") text)))).

Definition shifted_map : gmap str str :=
  list_to_map
    [ (lit "9", lit "("); (lit "0", lit ")"); (lit "[", lit "{");
      (lit "]", lit "}"); (lit "1", lit "!"); (lit "2", lit "@");
      (lit "3", lit "#"); (lit "4", lit "$"); (lit "5", lit "%");
      (lit "6", lit "^"); (lit "7", lit "&"); (lit "8", lit "*");
      (lit "-", lit "_"); (lit "=", lit "+"); (lit ";", lit ":");
      (lit "'", [dquote]); (lit ",", lit "<"); (lit ".", lit ">");
      (lit "/", lit "?"); (lit "`", lit "~"); (lit "\", lit "|") ].

Definition replacements_items : list (str * str) :=
  [ (lit "tab", lit "TAB"); (lit "esc", lit "ESC"); (lit "bspc", lit "BSPC");
    (lit "ent", lit "ENT"); (lit "spc", lit "SPC"); (lit "comm", lit ",");
    (lit "lsft", lit "LSFT"); (lit "LShift", lit "LSft");
    (lit "LCtrl", lit "LCtl"); (lit "mprv", lit "PREV");
    (lit "mnxt", lit "NEXT"); (lit "volu", lit "VOL+");
    (lit "vold", lit "VOL-"); (lit "mute", lit "MUTE");
    (lit "mply", lit "PLAY"); (lit "PgUp", lit "PgUp");
    (lit "PgDn", lit "PgDn"); (lit "Left", lit "Left");
    (lit "Right", lit "Right"); (lit "Down", lit "Down");
    (lit "Up", lit "Up"); (lit "Del", lit "Del"); (lit "Ins", lit "Ins") ].

Definition replacements : gmap str str := list_to_map replacements_items.

(** The two chained [replace] calls that shorten a modifier name. *)
Definition mod_short (modifier : str) : str :=
  replace (lit "LCtrl") (lit "Ctl")
    (replace (lit "LShift") (lit "Sft")
      (replace (lit "LAlt") (lit "Alt")
        (replace (lit "LGui") (lit "Gui") modifier))).

(** The [MT(] branch: [Some] when it returns, [None] when the two-part test
    fails and control falls through to the next [if]. *)
Definition format_mt (key : str) : option (list str * bool) :=
  if startswith key (lit "MT(") then
    let content := slice_to_last 3 key in
    let parts := map strip (split 44%N content) in
    match parts with
    | [main_key; modifier] =>
        Some ([main_key ++ lit "/" ++ mod_short modifier], true)
    | _ => None
    end
  else None.

Definition format_key_label (key : str) : list str * bool :=
  if bool_decide (key = []) || bool_decide (key = lit "_") then
    ([[em_dash]], false)
  else
    match format_mt key with
    | Some r => r
    | None =>
        if startswith key (lit "SHIFTED(") then
          let content := slice_to_last 8 key in
          let display := dict_get shifted_map content (lit "S-" ++ content) in
          ([display], false)
        else
          let display_key := dict_get replacements key key in
          let is_small := (3 <? length display_key)%nat in
          ([display_key], is_small)
    end.

(** *** Configuration

    The layout document after [tomllib.load], with the schema the code
    indexes: [config["keyboard"]["name"]], [config["layout"]["layers"]],
    [config["layout"]["keymap"]] and the list under
    [config["behavior"]["combo"]["combos"]], which is [[]] when any of the
    three keys is absent (the code treats both the same).  A combo is a
    dict; each of its keys may be missing. *)

Record Combo := {
  actions : option (list str);
  output : option str;
  layer : option Z }.

#[global] Instance Combo_eq_dec : EqDecision Combo.
Proof. solve_decision. Defined.

Record Config := {
  keyboard_name : str;
  layout_layers : Z;
  layout_keymap : list (list (list str));
  combos : list Combo }.

Record Generator := {
  config : Config;
  layer_names : gmap Z str;
  key_positions : gmap Z (gmap str (Z * Z)) }.

Definition LAYER_COLORS : gmap Z str :=
  list_to_map
    [ (0, lit "#f0f0f0"); (1, lit "#e8f4f8"); (2, lit "#fff4e8");
      (3, lit "#f0e8ff"); (4, lit "#f8e8f0") ].

Definition LEFT_POSITIONS : list (option (Z * Z)) :=
  [ Some (0, 40); Some (60, 40); Some (120, 30);
    Some (180, 20); Some (240, 30); Some (300, 40);
    Some (0, 100); Some (60, 100); Some (120, 90);
    Some (180, 80); Some (240, 90); Some (300, 100);
    Some (0, 160); Some (60, 160); Some (120, 150);
    Some (180, 140); Some (240, 150); Some (300, 160);
    None; None; None;
    Some (180, 220); Some (240, 235); Some (300, 250) ].

Definition RIGHT_POSITIONS : list (option (Z * Z)) :=
  [ Some (500, 40); Some (560, 30); Some (620, 20);
    Some (680, 30); Some (740, 40); Some (800, 40);
    Some (500, 100); Some (560, 90); Some (620, 80);
    Some (680, 90); Some (740, 100); Some (800, 100);
    Some (500, 160); Some (560, 150); Some (620, 140);
    Some (680, 150); Some (740, 160); Some (800, 160);
    Some (500, 250); Some (560, 235); Some (620, 220);
    None; None; None ].

(** [l[i]] with Python's negative indices. *)
Definition py_index {A} (l : list A) (i : Z) : result A :=
  let j := if i <? 0 then i + Z.of_nat (length l) else i in
  if j <? 0 then Err IndexError
  else match l !! Z.to_nat j with
       | Some a => Ok a
       | None => Err IndexError
       end.

(** [layer_keys[row][col]] *)
Definition grid_get (layer_keys : list (list str)) (row col : nat) : result str :=
  r ← py_index layer_keys (Z.of_nat row);
  py_index r (Z.of_nat col).

(** A [for] loop whose body can raise. *)
Fixpoint for_each {A S} (l : list A) (body : S → A → result S) (s : S) : result S :=
  match l with
  | [] => Ok s
  | a :: l' => s' ← body s a; for_each l' body s'
  end.

(** [for row in range(4): for col in range(6)] *)
Definition slots : list (nat * nat) :=
  row ← seq 0 4; col ← seq 0 6; [(row, col)].

Definition get_layer_name (self : Generator) (layer_idx : Z) : str :=
  dict_get (layer_names self) layer_idx (int_str layer_idx).

(** *** Position mapper *)

(** One iteration of either loop of [build_key_position_map]; [shift] is 0
    for the left half and 6 for the right. *)
Definition map_slot (template : list (option (Z * Z))) (shift : nat)
    (layer_keys : list (list str))
    (m : gmap str (Z * Z)) (slot : nat * nat) : result (gmap str (Z * Z)) :=
  let '(row, col) := slot in
  let pos_idx := (row * 6 + col)%nat in
  match template !!! pos_idx with
  | None => Ok m
  | Some pos =>
      key ← grid_get layer_keys row (col + shift);
      if negb (bool_decide (key = [])) && negb (bool_decide (key = lit "_"))
      then Ok (<[key := pos]> m)
      else Ok m
  end.

Definition build_key_position_map (self : Generator) (layer_idx : Z)
    : result Generator :=
  let keymap := layout_keymap (config self) in
  if Z.of_nat (length keymap) <=? layer_idx then Ok self
  else
    layer_keys ← py_index keymap layer_idx;
    m ← for_each slots (map_slot LEFT_POSITIONS 0 layer_keys) ∅;
    m ← for_each slots (map_slot RIGHT_POSITIONS 6 layer_keys) m;
    Ok {| config := config self;
          layer_names := layer_names self;
          key_positions := <[layer_idx := m]> (key_positions self) |}.

Definition find_key_position (self : Generator) (key_name : str) (layer_idx : Z)
    : option (Z * Z) :=
  match key_positions self !! layer_idx with
  | None => None
  | Some m => m !! key_name
  end.

(** [float(n)] raises [OverflowError] for an [int] that rounds beyond the
    largest double, that is from [2^1024 - 2^970] on. *)
Definition float_overflow : Z := 2 ^ 1024 - 2 ^ 970.

(** [n ** 0.5 < bound] for [int]s [n >= 0] and [bound >= 0].  The
    conversion of [n] to a float may overflow; otherwise the square root
    is below [bound] exactly when [n] is below [bound * bound] (for the
    bound 80 of the source, 6399 and 6400 are doubles and their roots are
    far more than one rounding error apart). *)
Definition sqrt_lt (n bound : Z) : result bool :=
  if float_overflow <=? n then Err OverflowError
  else Ok (n <? bound * bound).

Definition are_keys_contiguous (pos1 pos2 : Z * Z) : result bool :=
  let '(x1, y1) := pos1 in
  let '(x2, y2) := pos2 in
  sqrt_lt ((x2 - x1) ^ 2 + (y2 - y1) ^ 2) 80.

(** *** Combo renderer *)

(** The badge coordinates are floats: [(x1 + x2) / 2 + 25] and the like.
    Each of them is [k / 2] for an [int] [k], computed without rounding as
    long as the coordinates stay below [2^52] in size, which the templates
    guarantee.  [half_str k] is what an f-string prints for the float
    [k / 2]: its [repr], with one decimal digit. *)
Definition half_str (k : Z) : str :=
  (if k <? 0 then lit "-" else []) ++ int_str (Z.abs k / 2)
  ++ (if Z.even k then lit ".0" else lit ".5").

(** The [for] loop that sets [all_contiguous]; it stops at the first pair
    that is not contiguous. *)
Fixpoint all_contiguous (ps : list (str * (Z * Z))) : result bool :=
  match ps with
  | p1 :: ((p2 :: _) as rest) =>
      c ← are_keys_contiguous p1.2 p2.2;
      if c : bool then all_contiguous rest else Ok false
  | _ => Ok true
  end.

(** [[(k, pos) for k in actions if find_key_position(k, layer_idx)]] *)
Definition resolve (self : Generator) (layer_idx : Z) (acts : list str)
    : list (str * (Z * Z)) :=
  omap (λ k, pos ← find_key_position self k layer_idx; Some (k, pos)) acts.

Definition nl : str := [10%N].

(** [escape_xml(lines[0] if lines else output)] of the formatted output. *)
Definition output_label (out : str) : str :=
  let '(lines, _) := format_key_label out in
  escape_xml (match lines with l :: _ => l | [] => out end).

Definition generate_combo_visual (self : Generator) (combo : Combo)
    (layer_idx x_offset y_offset : Z) : result str :=
  let acts := default [] (actions combo) in
  let out := default [] (output combo) in
  let combo_layer := default 0 (layer combo) in
  if negb (bool_decide (combo_layer = layer_idx)) then Ok []
  else if (length acts <? 2)%nat then Ok []
  else
    let positions := resolve self layer_idx acts in
    if (length positions <? 2)%nat then Ok []
    else
      let adjusted_positions :=
        map (λ p : str * (Z * Z), (p.1, (p.2.1 + x_offset, p.2.2 + y_offset)))
            positions in
      contiguous ← all_contiguous adjusted_positions;
      match adjusted_positions with
      | [] => Err IndexError
      | (_, (x1, y1)) :: others =>
          match others with
          | [(_, (x2, y2))] =>
              if contiguous : bool then
                let center_x := x1 + x2 + 50 in
                let center_y := y1 + y2 + 50 in
                Ok (tpl "    <rect x=~" ++ half_str (center_x - 28)
                    ++ tpl "~ y=~" ++ half_str (center_y - 28)
                    ++ tpl "~ width=~28~ height=~28~ class=~combo-overlay~/>" ++ nl
                    ++ tpl "    <text x=~" ++ half_str center_x
                    ++ tpl "~ y=~" ++ half_str (center_y + 10)
                    ++ tpl "~ class=~combo-overlay-text~>" ++ output_label out
                    ++ tpl "</text>" ++ nl)
              else
                let mid_x := (x1 + 25) + (x2 + 25) in
                let mid_y := (y1 + 25) + (y2 + 25) in
                Ok (tpl "    <!-- Combo connection lines -->" ++ nl
                    ++ tpl "    <line x1=~" ++ int_str (x1 + 25)
                    ++ tpl "~ y1=~" ++ int_str (y1 + 25)
                    ++ tpl "~ x2=~" ++ int_str (x2 + 25)
                    ++ tpl "~ y2=~" ++ int_str (y2 + 25)
                    ++ tpl "~ class=~combo-line~/>" ++ nl
                    ++ tpl "    <circle cx=~" ++ half_str mid_x
                    ++ tpl "~ cy=~" ++ half_str mid_y
                    ++ tpl "~ r=~15~ class=~combo-overlay~/>" ++ nl
                    ++ tpl "    <text x=~" ++ half_str mid_x
                    ++ tpl "~ y=~" ++ half_str (mid_y + 8)
                    ++ tpl "~ class=~combo-overlay-text~>" ++ output_label out
                    ++ tpl "</text>" ++ nl)
          | _ =>
              Ok (tpl "    <!-- Combo connection lines -->" ++ nl
                  ++ concat (map (λ p : str * (Z * Z),
                       tpl "    <line x1=~" ++ int_str (x1 + 25)
                       ++ tpl "~ y1=~" ++ int_str (y1 + 25)
                       ++ tpl "~ x2=~" ++ int_str (p.2.1 + 25)
                       ++ tpl "~ y2=~" ++ int_str (p.2.2 + 25)
                       ++ tpl "~ class=~combo-line~/>" ++ nl) others))
          end
      end.

(** *** Key and layer renderer *)

Definition generate_key (x y : Z) (label : str) (layer_idx : Z)
    (is_transparent : bool) : str :=
  let '(lines, is_small) := format_key_label label in
  if is_transparent || bool_decide (label = []) || bool_decide (label = lit "_")
  then
    tpl "    <rect x=~" ++ int_str x ++ tpl "~ y=~" ++ int_str y
    ++ tpl "~ width=~50~ height=~50~ rx=~6~ class=~key-empty~/>" ++ nl
    ++ tpl "    <text x=~" ++ int_str (x + 25) ++ tpl "~ y=~" ++ int_str (y + 28)
    ++ tpl "~ class=~empty-label~>" ++ [em_dash] ++ tpl "</text>" ++ nl
  else
    let color := dict_get LAYER_COLORS layer_idx (lit "#f0f0f0") in
    let font_class := if is_small then lit "key-small" else [] in
    let text_line (text_y : Z) (line : str) :=
      tpl "    <text x=~" ++ int_str (x + 25) ++ tpl "~ y=~" ++ int_str text_y
      ++ tpl "~ class=~key-text " ++ font_class ++ tpl "~>" ++ escape_xml line
      ++ tpl "</text>" ++ nl in
    tpl "    <rect x=~" ++ int_str x ++ tpl "~ y=~" ++ int_str y
    ++ tpl "~ width=~50~ height=~50~ rx=~6~ class=~key~ style=~fill: "
    ++ color ++ tpl "~/>" ++ nl
    ++ match lines with
       | [line] => text_line (y + 30) line
       | _ => concat (imap (λ i line, text_line (y + 22 + Z.of_nat i * 12) line)
                           lines)
       end.

(** One iteration of either key loop of [generate_layer]. *)
Definition draw_slot (template : list (option (Z * Z))) (shift : nat)
    (layer_keys : list (list str)) (layer_idx : Z)
    (svg : str) (slot : nat * nat) : result str :=
  let '(row, col) := slot in
  let pos_idx := (row * 6 + col)%nat in
  match template !!! pos_idx with
  | None => Ok svg
  | Some pos =>
      key ← grid_get layer_keys row (col + shift);
      let is_transparent := bool_decide (key = lit "_") && (0 <? layer_idx) in
      Ok (svg ++ generate_key pos.1 pos.2 key layer_idx is_transparent)
  end.

(** The block of a layer the keymap lacks: the title and the notice. *)
Definition placeholder_layer (self : Generator) (layer_idx y_offset : Z) : str :=
  tpl "  <g id=~layer" ++ int_str layer_idx ++ tpl "~ transform=~translate(50, "
  ++ int_str y_offset ++ tpl ")~>" ++ nl
  ++ tpl "    <text x=~400~ y=~0~ class=~layer-title~>Layer " ++ int_str layer_idx
  ++ tpl ": " ++ get_layer_name self layer_idx ++ tpl "</text>" ++ nl
  ++ tpl "    <text x=~400~ y=~150~ class=~legend~ style=~font-size: 18px;~>"
  ++ tpl "(Layer is defined but has no key mappings in keyboard.toml)</text>" ++ nl
  ++ tpl "  </g>" ++ nl ++ nl.

Definition generate_layer (self : Generator) (layer_idx y_offset : Z)
    : result str :=
  let keymap := layout_keymap (config self) in
  if Z.of_nat (length keymap) <=? layer_idx then
    Ok (placeholder_layer self layer_idx y_offset)
  else
    layer_keys ← py_index keymap layer_idx;
    let layer_name := get_layer_name self layer_idx in
    let svg :=
      tpl "  <!-- Layer " ++ int_str layer_idx ++ tpl ": " ++ layer_name
      ++ tpl " -->" ++ nl
      ++ tpl "  <g id=~layer" ++ int_str layer_idx
      ++ tpl "~ transform=~translate(50, " ++ int_str y_offset ++ tpl ")~>" ++ nl
      ++ tpl "    <text x=~400~ y=~0~ class=~layer-title~>Layer "
      ++ int_str layer_idx ++ tpl ": " ++ layer_name ++ tpl "</text>" ++ nl ++ nl
      ++ tpl "    <!-- Left half -->" ++ nl in
    svg ← for_each slots (draw_slot LEFT_POSITIONS 0 layer_keys layer_idx) svg;
    let svg := svg ++ nl ++ tpl "    <!-- Right half -->" ++ nl in
    svg ← for_each slots (draw_slot RIGHT_POSITIONS 6 layer_keys layer_idx) svg;
    svg ← match combos (config self) with
          | [] => Ok svg
          | cs =>
              for_each cs
                (λ svg combo,
                   v ← generate_combo_visual self combo layer_idx 0 0;
                   Ok (svg ++ v))
                (svg ++ nl ++ tpl "    <!-- Combos -->" ++ nl)
          end;
    Ok (svg ++ tpl "  </g>" ++ nl ++ nl).

(** *** Legend and document *)

(** [combos.index(combo)]: the position of the first equal combo. *)
Definition index_of (cs : list Combo) (combo : Combo) : Z :=
  match list_find (λ c, c = combo) cs with
  | Some (i, _) => Z.of_nat i
  | None => 0
  end.

(** [range(n)] *)
Definition range (n : Z) : list Z := Z.of_nat <$> seq 0 (Z.to_nat n).

Definition generate_legend (self : Generator) (y_offset : Z) : result str :=
  let svg :=
    tpl "  <!-- Legend -->" ++ nl
    ++ tpl "  <g id=~legend~ transform=~translate(50, " ++ int_str y_offset
    ++ tpl ")~>" ++ nl
    ++ tpl "    <text x=~0~ y=~0~ class=~layer-title~>Legend &amp; Info</text>"
    ++ nl ++ nl in
  let keyboard_name := keyboard_name (config self) in
  let num_layers := layout_layers (config self) in
  let svg :=
    svg ++ tpl "    <text x=~0~ y=~40~ class=~legend~>" ++ [bullet]
    ++ tpl " Keyboard: " ++ keyboard_name ++ tpl " (Split 3" ++ [times_sign]
    ++ tpl "6+3 layout)</text>" ++ nl
    ++ tpl "    <text x=~0~ y=~65~ class=~legend~>" ++ [bullet]
    ++ tpl " Total Keys: 42 (21 per side)</text>" ++ nl in
  let cs := combos (config self) in
  svg ← for_each (take 3 cs)
           (λ svg combo,
              acts ← from_option Ok (Err KeyError) (actions combo);
              out ← from_option Ok (Err KeyError) (output combo);
              let y := 90 + index_of cs combo * 25 in
              Ok (svg ++ tpl "    <text x=~0~ y=~" ++ int_str y
                  ++ tpl "~ class=~legend~>" ++ [bullet] ++ tpl " Combo: "
                  ++ join (lit " + ") acts ++ tpl " = " ++ out
                  ++ tpl "</text>" ++ nl))
           svg;
  let svg :=
    svg ++ tpl "    <text x=~0~ y=~115~ class=~legend~>" ++ [bullet]
    ++ tpl " MT() = Mod-Tap (hold for modifier, tap for key)</text>"
    ++ nl ++ nl in
  let swatch (st : str * Z) (layer_idx : Z) : str * Z :=
    let '(svg, y_pos) := st in
    (svg ++ tpl "    <rect x=~0~ y=~" ++ int_str y_pos
     ++ tpl "~ width=~50~ height=~30~ rx=~6~ class=~key~ style=~fill: "
     ++ dict_get LAYER_COLORS layer_idx (lit "#f0f0f0") ++ tpl "~/>" ++ nl
     ++ tpl "    <text x=~60~ y=~" ++ int_str (y_pos + 20)
     ++ tpl "~ class=~legend~>Layer " ++ int_str layer_idx ++ tpl ": "
     ++ get_layer_name self layer_idx ++ tpl "</text>" ++ nl ++ nl,
     y_pos + 40) in
  let '(svg, y_pos) := foldl swatch (svg, 140) (range (Z.min num_layers 5)) in
  Ok (svg
      ++ tpl "    <rect x=~0~ y=~" ++ int_str y_pos
      ++ tpl "~ width=~50~ height=~30~ rx=~6~ class=~key-empty~/>" ++ nl
      ++ tpl "    <text x=~60~ y=~" ++ int_str (y_pos + 20)
      ++ tpl "~ class=~legend~>Transparent key (passes through to lower layer)</text>"
      ++ nl
      ++ tpl "  </g>" ++ nl ++ nl).

Definition generate_svg_header (width height : Z) : str :=
  tpl "<svg xmlns=~http://www.w3.org/2000/svg~ viewBox=~0 0 " ++ int_str width
  ++ tpl " " ++ int_str height ++ tpl "~ width=~" ++ int_str width
  ++ tpl "~ height=~" ++ int_str height ++ tpl "~>" ++ nl
  ++ tpl "  <defs>" ++ nl
  ++ tpl "    <style>" ++ nl
  ++ tpl "      .layer-title { font-family: Arial, sans-serif; font-size: 28px; font-weight: bold; fill: #333; }" ++ nl
  ++ tpl "      .key { fill: #f0f0f0; stroke: #333; stroke-width: 2; rx: 6; }" ++ nl
  ++ tpl "      .key-empty { fill: #fafafa; stroke: #ccc; stroke-width: 1; stroke-dasharray: 3,3; rx: 6; }" ++ nl
  ++ tpl "      .key-text { font-family: 'Courier New', monospace; font-size: 12px; fill: #000; text-anchor: middle; }" ++ nl
  ++ tpl "      .key-small { font-size: 9px; }" ++ nl
  ++ tpl "      .empty-label { font-family: Arial, sans-serif; font-size: 10px; fill: #999; text-anchor: middle; }" ++ nl
  ++ tpl "      .legend { font-family: Arial, sans-serif; font-size: 14px; fill: #666; }" ++ nl
  ++ tpl "      .combo-line { stroke: #003366; stroke-width: 3; fill: none; opacity: 0.7; }" ++ nl
  ++ tpl "      .combo-key { fill: #003366; stroke: #001a33; stroke-width: 1.5; rx: 3; }" ++ nl
  ++ tpl "      .combo-text { font-family: 'Courier New', monospace; font-size: 8px; fill: #fff; text-anchor: middle; font-weight: bold; }" ++ nl
  ++ tpl "      .combo-overlay { fill: #003366; stroke: #001a33; stroke-width: 2; rx: 6; opacity: 0.95; }" ++ nl
  ++ tpl "      .combo-overlay-text { font-family: 'Courier New', monospace; font-size: 11px; fill: #fff; text-anchor: middle; font-weight: bold; }" ++ nl
  ++ tpl "    </style>" ++ nl
  ++ tpl "  </defs>" ++ nl ++ nl.

(** The closing lines of [generate]: footer caption and [</svg>]. *)
Definition footer (total_width total_height : Z) : str :=
  tpl "  <!-- Footer -->" ++ nl
  ++ tpl "  <text x=~" ++ int_str (total_width - 50) ++ tpl "~ y=~"
  ++ int_str (total_height - 50) ++ tpl "~ class=~legend~ text-anchor=~end~>"
  ++ tpl "Generated from keyboard.toml and vial.json</text>" ++ nl
  ++ tpl "</svg>" ++ nl.

(** The body of [generate] between [load_config] and the write: both
    loops over [range(num_layers)], the legend and the footer. *)
Definition generate_document (self : Generator) : result str :=
  let num_layers := layout_layers (config self) in
  self ← for_each (range num_layers) build_key_position_map self;
  let layer_height := 350 in
  let legend_height := 400 in
  let total_height := 50 + num_layers * layer_height + legend_height in
  let total_width := 1600 in
  let svg := generate_svg_header total_width total_height in
  svg ← for_each (range num_layers)
           (λ svg layer_idx,
              let y_offset := 50 + layer_idx * layer_height in
              block ← generate_layer self layer_idx y_offset;
              Ok (svg ++ block))
           svg;
  let legend_offset := 50 + num_layers * layer_height in
  legend ← generate_legend self legend_offset;
  Ok (svg ++ legend ++ footer total_width total_height).

(** *** Config loader *)

(** The loop state of [_extract_layer_names]. *)
Record scan := {
  layer_idx : Z;
  in_keymap : bool;
  last_comment : option str;
  names : gmap Z str }.

(** Truthiness of [last_comment]: neither [None] nor the empty string. *)
Definition truthy (c : option str) : bool :=
  match c with
  | Some (_ :: _) => true
  | _ => false
  end.

(** The loop of [_extract_layer_names] over the remaining lines; the result
    is the state when the loop ends, by exhaustion or by [break]. *)
Fixpoint scan_lines (lines : list str) (st : scan) : scan :=
  match lines with
  | [] => st
  | line :: rest =>
      let stripped := strip line in
      if contains stripped (lit "keymap = [") then
        scan_lines rest
          {| layer_idx := layer_idx st; in_keymap := true;
             last_comment := last_comment st; names := names st |}
      else if negb (in_keymap st) then scan_lines rest st
      else if bool_decide (stripped = lit "]") then st
      else if startswith stripped (lit "#") && negb (startswith stripped (lit "##"))
      then
        scan_lines rest
          {| layer_idx := layer_idx st; in_keymap := in_keymap st;
             last_comment := Some (strip (drop 1 stripped)); names := names st |}
      else if bool_decide (stripped = lit "[") && truthy (last_comment st) then
        scan_lines rest
          {| layer_idx := layer_idx st + 1; in_keymap := in_keymap st;
             last_comment := None;
             names := <[layer_idx st := default [] (last_comment st)]> (names st) |}
      else scan_lines rest st
  end.

(** [_extract_layer_names] on the lines of the layout file, starting from
    the [layer_names] the object already holds. *)
Definition extract_layer_names (lines : list str) (layer_names : gmap Z str)
    : gmap Z str :=
  names (scan_lines lines
           {| layer_idx := 0; in_keymap := false; last_comment := None;
              names := layer_names |}).

(** [f.readlines()] of a text file: universal newlines turn [\r\n] and [\r]
    into [\n], and every line keeps its newline.  [cur] is the line read so
    far, [after_cr] tells that the previous character was [\r]. *)
Fixpoint readlines_from (cur : str) (after_cr : bool) (text : str) : list str :=
  match text with
  | [] => match cur with [] => [] | _ => [cur] end
  | c :: text' =>
      if (c =? 10)%N then
        if after_cr then readlines_from cur false text'
        else (cur ++ nl) :: readlines_from [] false text'
      else if (c =? 13)%N then (cur ++ nl) :: readlines_from [] true text'
      else readlines_from (cur ++ [c]) false text'
  end.

Definition readlines (text : str) : list str := readlines_from [] false text.

(** The file system: the decoded text of every file that exists. *)
Abbreviation FS := (gmap str str).

(** [open(path)] for reading. *)
Definition open_read (fs : FS) (path : str) : result str :=
  from_option Ok (Err FileNotFoundError) (fs !! path).

Section Run.

(** [tomllib.load] belongs to the Python library, not to this program:
    [None] stands for a document it rejects. *)
Variable tomllib_load : str → option Config.

(** [load_config]: the configuration and the layer names. *)
Definition load_config (fs : FS) (toml_path : str)
    : result (Config * gmap Z str) :=
  text ← open_read fs toml_path;
  config ← from_option Ok (Err TOMLDecodeError) (tomllib_load text);
  text ← open_read fs toml_path;
  Ok (config, extract_layer_names (readlines text) ∅).

(** [generate] of a generator made by [__init__] with the two paths;
    the result is the file system after [write_text]. *)
Definition generate (fs : FS) (toml_path json_path output_path : str)
    : result FS :=
  '(config, layer_names) ← load_config fs toml_path;
  svg ← generate_document
          {| config := config; layer_names := layer_names;
             key_positions := ∅ |};
  Ok (<[output_path := svg]> fs).

(** [main]: the exit status of the process and the file system it leaves.
    Both [except] clauses end in [sys.exit(1)]. *)
Definition main (argv : list str) (fs : FS) : Z * FS :=
  let toml_path := default (lit "keyboard.toml") (argv !! 1%nat) in
  let json_path := default (lit "vial.json") (argv !! 2%nat) in
  let output_path := default (lit "keyboard.svg") (argv !! 3%nat) in
  match generate fs toml_path json_path output_path with
  | Ok fs' => (0, fs')
  | Err FileNotFoundError => (1, fs)
  | Err _ => (1, fs)
  end.

End Run.

End KeyboardLayoutGenerator.

Import KeyboardLayoutGenerator.

(** * Vocabulary of the statements *)

Module Spec.

(** A line that, inside the keymap section, leaves the loop state of
    [_extract_layer_names] alone: it repeats the section opener, or it is
    neither the closing [[]]], nor a single-[#] comment, nor a lone [[[]. *)
Definition inert (line : str) : bool :=
  let stripped := strip line in
  contains stripped (lit "keymap = [")
  || negb (bool_decide (stripped = lit "]"))
     && negb (startswith stripped (lit "#") && negb (startswith stripped (lit "##")))
     && negb (bool_decide (stripped = lit "[")).



(** Coordinates far inside the range of a double. *)
Definition bounded (pos : Z * Z) : Prop :=
  0 ≤ pos.1 ≤ 1000 ∧ 0 ≤ pos.2 ≤ 1000.

(** Every position a generator has recorded is [bounded]. *)
Definition positions_bounded (self : Generator) : Prop :=
  ∀ layer_idx m, key_positions self !! layer_idx = Some m →
                 map_Forall (λ _ pos, bounded pos) m.

(** A small layout used to run the pipeline: one layer in the keymap, two
    layers declared, a keyboard name with an ampersand. *)
Definition example_layer : list (list str) :=
  map (map lit)
    [ ["tab"; "q"; "w"; "e"; "r"; "t"; "y"; "u"; "i"; "o"; "p"; "bspc"];
      ["esc"; "MT(a, LGui)"; "s"; "d"; "f"; "g"; "h"; "j"; "k"; "l"; ";"; "'"];
      ["_"; "z"; "x"; "c"; "v"; "b"; "n"; "m"; "comm"; "."; "/"; "_"];
      ["_"; "_"; "_"; "LCtrl"; "spc"; "ent"; "bspc"; "SHIFTED(9)"; "a<b"; "_"; "_"; "_"]
    ]%string.

Definition example_config : Config :=
  {| keyboard_name := lit "R&D";
     layout_layers := 2;
     layout_keymap := [example_layer];
     combos := [ {| actions := Some [lit "q"; lit "w"];
                    output := Some (lit "esc");
                    layer := None |} ] |}.

(** The lines of a layout file whose first layer is announced by a comment
    that another line separates from the opening bracket. *)
Definition example_lines : list str :=
  [ lit "[layout]"; lit "keymap = ["; lit "  # <Base>"; lit "  x";
    lit "  ["; lit "  ],"; lit "]" ].

Definition example_text : str := join nl example_lines.

(** What [escape_xml] puts in place of one character. *)
Definition escape_char (c : char) : str :=
  if bool_decide (c = 38%N) then lit "&amp;"
  else if bool_decide (c = 60%N) then lit "&lt;"
  else if bool_decide (c = 62%N) then lit "&gt;"
  else if bool_decide (c = 34%N) then lit "&quot;"
  else if bool_decide (c = 39%N) then lit "&apos;"
  else [c].

(** The characters [<], [>], the double quote and the apostrophe. *)
Definition markup_chars : list char := [60; 62; 34; 39]%N.

(** The same and the ampersand. *)
Definition special_chars : list char := 38%N :: markup_chars.

(** A single-[#] comment line, as [_extract_layer_names] recognises it. *)
Definition is_name_comment (line : str) : bool :=
  negb (contains (strip line) (lit "keymap = ["))
  && startswith (strip line) (lit "#")
  && negb (startswith (strip line) (lit "##")).

(** A generator as [generate] has it before its first loop. *)
Definition fresh (cfg : Config) (names : gmap Z str) : Generator :=
  {| config := cfg; layer_names := names; key_positions := ∅ |}.

(** A grid too small for the slots the templates read: fewer than 4
    rows, or one of the first 4 rows with fewer than 9 tokens. *)
Definition short_grid (layer_keys : list (list str)) : Prop :=
  (length layer_keys < 4)%nat
  ∨ ∃ row r, (row < 4)%nat ∧ layer_keys !! row = Some r ∧ (length r < 9)%nat.

(** A combo the legend can print: it has both keys the legend indexes. *)
Definition legend_ready (c : Combo) : Prop :=
  is_Some (actions c) ∧ is_Some (output c).

(** The example layout with its last row cut to three tokens. *)
Definition example_short_config : Config :=
  {| keyboard_name := lit "R&D";
     layout_layers := 1;
     layout_keymap := [take 3 example_layer ++ [[lit "a"; lit "b"; lit "c"]]];
     combos := [] |}.

(** The example layout after the position map of its layer 0 is built. *)
Definition example_built : Generator :=
  match build_key_position_map (fresh example_config ∅) 0 with
  | Ok self => self
  | Err _ => fresh example_config ∅
  end.

End Spec.

Import Spec.

(** * Properties *)

(** ** Python string operations *)

Section StringLemmas.

Implicit Types s p k m : str.

Lemma startswith_spec s p : startswith s p = true ↔ ∃ r, s = p ++ r.
Proof.
  revert s. induction p as [|a p IH]; intros s; simpl.
  - split; [intros _; by exists s | done].
  - destruct s as [|b s].
    + split; [done | intros [r Hr]; discriminate].
    + rewrite andb_true_iff, bool_decide_eq_true, IH. split.
      * intros [-> [r ->]]. eauto.
      * intros [r Hr]. injection Hr as -> ->. eauto.
Qed.

Lemma startswith_app p r : startswith (p ++ r) p = true.
Proof. apply startswith_spec. eauto. Qed.

Lemma startswith_head_ne a b s p : a ≠ b → startswith (a :: s) (b :: p) = false.
Proof.
  intros Hne. simpl. rewrite bool_decide_eq_false_2; [done | congruence].
Qed.

Lemma slice_to_last_app p x c :
  slice_to_last (length p) (p ++ x ++ [c]) = x.
Proof.
  unfold slice_to_last.
  rewrite !length_app. simpl.
  replace (length p + (length x + 1) - 1)%nat with (length (p ++ x))
    by (rewrite length_app; lia).
  rewrite (assoc_L (++)), take_app_length, drop_app_length. done.
Qed.

Lemma split_length_pos sep s : (0 < length (split sep s))%nat.
Proof.
  induction s as [|c s IH]; simpl; [lia|].
  case_bool_decide; simpl; [lia|].
  destruct (split sep s); simpl in *; lia.
Qed.

Lemma split_no_sep sep k : sep ∉ k → split sep k = [k].
Proof.
  induction k as [|c k IH]; intros Hk; [done|].
  apply not_elem_of_cons in Hk as [Hc Hk]. simpl.
  rewrite bool_decide_eq_false_2 by congruence.
  by rewrite IH.
Qed.

Lemma split_app sep k m :
  sep ∉ k → split sep (k ++ sep :: m) = k :: split sep m.
Proof.
  induction k as [|c k IH]; intros Hk; simpl.
  - by rewrite bool_decide_eq_true_2.
  - apply not_elem_of_cons in Hk as [Hc Hk].
    rewrite bool_decide_eq_false_2 by congruence.
    by rewrite IH.
Qed.

End StringLemmas.

(** Literals of the source are evaluated before a proof looks at them. *)
Ltac eval_lits :=
  repeat match goal with
         | |- context [lit ?s] =>
             let v := eval vm_compute in (lit s) in change (lit s) with v
         end.

(** ** Label formatter *)

Section Labels.

Implicit Types key : str.

Lemma format_mt_not_mt key :
  startswith key (lit "MT(") = false → format_mt key = None.
Proof. intros H. unfold format_mt. by rewrite H. Qed.

Lemma format_mt_not_two_parts key :
  length (split 44%N (slice_to_last 3 key)) ≠ 2%nat → format_mt key = None.
Proof.
  intros Hlen. unfold format_mt.
  destruct (startswith key (lit "MT(")); [|done].
  rewrite <- (length_map strip) in Hlen.
  destruct (map strip _) as [|a [|b [|c l]]]; done.
Qed.

Lemma replacements_keys_not_mt key :
  startswith key (lit "MT(") = true → replacements !! key = None.
Proof.
  intros Hmt. apply not_elem_of_list_to_map_1. intros Hin.
  assert (Hall : Forall (λ k, startswith k (lit "MT(") = false)
                        (replacements_items.*1))
    by (vm_compute; repeat constructor).
  rewrite Forall_forall in Hall. specialize (Hall _ Hin). congruence.
Qed.

Lemma format_key_label_plain key :
  key ≠ [] → key ≠ lit "_" → format_mt key = None →
  startswith key (lit "SHIFTED(") = false →
  format_key_label key
  = ([dict_get replacements key key],
     (3 <? length (dict_get replacements key key))%nat).
Proof.
  intros H1 H2 Hmt Hsh. unfold format_key_label.
  rewrite !bool_decide_eq_false_2 by done. cbn [orb].
  by rewrite Hmt, Hsh.
Qed.

Lemma format_key_label_mt key r :
  key ≠ [] → key ≠ lit "_" → format_mt key = Some r → format_key_label key = r.
Proof.
  intros H1 H2 Hmt. unfold format_key_label.
  rewrite !bool_decide_eq_false_2 by done. cbn [orb].
  by rewrite Hmt.
Qed.

Lemma format_key_label_shifted key :
  key ≠ [] → key ≠ lit "_" → format_mt key = None →
  startswith key (lit "SHIFTED(") = true →
  format_key_label key
  = ([dict_get shifted_map (slice_to_last 8 key)
        (lit "S-" ++ slice_to_last 8 key)], false).
Proof.
  intros H1 H2 Hmt Hsh. unfold format_key_label.
  rewrite !bool_decide_eq_false_2 by done. cbn [orb].
  by rewrite Hmt, Hsh.
Qed.

(** C9: [are_keys_contiguous] is symmetric in its two coordinates,
    whether it answers or raises. *)
Theorem are_keys_contiguous_sym (a b : Z * Z) :
  are_keys_contiguous a b = are_keys_contiguous b a.
Proof.
  destruct a as [x1 y1], b as [x2 y2]. unfold are_keys_contiguous.
  f_equal. ring.
Qed.

(** C6: [format_key_label] answers for every token with a list of display
    lines that is not empty, and a plain token (not blank, not the
    transparency marker, not a modifier-tap or shifted compound) that the
    synonym table lacks comes back verbatim as the single line. *)
Theorem format_key_label_total key :
  (format_key_label key).1 ≠ [] ∧
  (key ≠ [] → key ≠ lit "_" →
   startswith key (lit "MT(") = false →
   startswith key (lit "SHIFTED(") = false →
   replacements !! key = None →
   (format_key_label key).1 = [key]).
Proof.
  split.
  - unfold format_key_label.
    destruct (_ || _); [done|].
    destruct (format_mt key) as [[lines small]|] eqn:Hmt.
    + unfold format_mt in Hmt.
      destruct (startswith key (lit "MT(")); [|done].
      destruct (map strip _) as [|a [|b [|c l]]]; try done.
      by injection Hmt as <- <-.
    + by destruct (startswith key (lit "SHIFTED(")).
  - intros H1 H2 Hmt Hsh Hrep.
    rewrite format_key_label_plain by auto using format_mt_not_mt.
    unfold dict_get. by rewrite Hrep.
Qed.

Lemma format_key_label_total_witness :
  (format_key_label (lit "F13")).1 = [lit "F13"].
Proof.
  apply (proj2 (format_key_label_total (lit "F13")));
    vm_compute; (reflexivity || discriminate).
Defined.

(** C10: a token that starts with [MT(] and whose inner content does not
    split into exactly two comma-separated parts comes back whole, wrapper
    included, as the single display line; the compact font is used exactly
    when the token is longer than 3 characters. *)
Theorem format_key_label_mt_fallthrough key :
  startswith key (lit "MT(") = true →
  length (split 44%N (slice_to_last 3 key)) ≠ 2%nat →
  format_key_label key = ([key], (3 <? length key)%nat).
Proof.
  intros Hmt Hparts.
  pose proof (replacements_keys_not_mt key Hmt) as Hrep.
  apply startswith_spec in Hmt as [r ->].
  rewrite format_key_label_plain.
  - unfold dict_get. by rewrite Hrep.
  - done.
  - done.
  - by apply format_mt_not_two_parts.
  - eval_lits. by apply startswith_head_ne.
Qed.

Lemma format_key_label_mt_fallthrough_witness :
  format_key_label (lit "MT(a, LGui, LAlt)")
  = ([lit "MT(a, LGui, LAlt)"], true).
Proof.
  apply (format_key_label_mt_fallthrough (lit "MT(a, LGui, LAlt)"));
    vm_compute; (reflexivity || discriminate).
Defined.

(** C8: the two compound forms.  A token [MT(<key>,<modifier>)] whose two
    parts hold no further comma gives the single line
    [<key>/<shortened modifier>] (both parts stripped of blanks, the four
    modifier names shortened) in compact font; a token [SHIFTED(<char>)]
    gives the symbol the 21-entry shift table has for [<char>], else
    [S-<char>], in normal font. *)
Theorem compound_token_rules :
  (∀ k m : str, 44%N ∉ k → 44%N ∉ m →
     format_key_label (lit "MT(" ++ k ++ lit "," ++ m ++ lit ")")
     = ([strip k ++ lit "/" ++ mod_short (strip m)], true)) ∧
  (mod_short (lit "LGui") = lit "Gui" ∧ mod_short (lit "LAlt") = lit "Alt" ∧
   mod_short (lit "LShift") = lit "Sft" ∧ mod_short (lit "LCtrl") = lit "Ctl") ∧
  format_key_label (lit "MT(a, LGui)") = ([lit "a/Gui"], true) ∧
  (∀ c : str,
     format_key_label (lit "SHIFTED(" ++ c ++ lit ")")
     = ([default (lit "S-" ++ c) (shifted_map !! c)], false)) ∧
  size shifted_map = 21%nat ∧
  format_key_label (lit "SHIFTED(9)") = ([lit "("], false).
Proof.
  split; [|split; [|split; [|split; [|split]]]].
  - intros k m Hk Hm. apply format_key_label_mt.
    + by eval_lits.
    + by eval_lits.
    + unfold format_mt. rewrite startswith_app.
      replace (lit "MT(" ++ k ++ lit "," ++ m ++ lit ")")
        with (lit "MT(" ++ (k ++ lit "," ++ m) ++ [41%N])
        by (by rewrite <- !(assoc_L (++))).
      rewrite (slice_to_last_app (lit "MT(")).
      change (lit ",") with [44%N]. cbn [app].
      by rewrite split_app, split_no_sep.
  - by vm_compute.
  - by vm_compute.
  - intros c.
    rewrite format_key_label_shifted.
    + change (lit ")") with [41%N].
      rewrite (slice_to_last_app (lit "SHIFTED(")).
      unfold dict_get. by destruct (shifted_map !! c).
    + by eval_lits.
    + by eval_lits.
    + apply format_mt_not_mt. eval_lits. by apply startswith_head_ne.
    + apply startswith_app.
  - by vm_compute.
  - by vm_compute.
Qed.

Lemma compound_token_rules_witness :
  format_key_label (lit "MT(" ++ lit "a" ++ lit "," ++ lit " LGui" ++ lit ")")
  = ([lit "a/Gui"], true).
Proof.
  apply (proj1 compound_token_rules (lit "a") (lit " LGui"));
    apply (bool_decide_unpack _); vm_compute; exact I.
Defined.

End Labels.

(** ** Key renderer *)

(** C1: in [generate_key] the transparency marker is drawn as the dashed
    empty placeholder whatever the layer index and whatever flag
    [generate_layer] passes, hence also on layer 0, where the flag is
    false. *)
Theorem transparency_marker_dashed_on_every_layer
    (x y layer_idx : Z) (is_transparent : bool) :
  generate_key x y (lit "_") layer_idx is_transparent
  = tpl "    <rect x=~" ++ int_str x ++ tpl "~ y=~" ++ int_str y
    ++ tpl "~ width=~50~ height=~50~ rx=~6~ class=~key-empty~/>" ++ nl
    ++ tpl "    <text x=~" ++ int_str (x + 25) ++ tpl "~ y=~" ++ int_str (y + 28)
    ++ tpl "~ class=~empty-label~>" ++ [em_dash] ++ tpl "</text>" ++ nl.
Proof.
  unfold generate_key.
  destruct (format_key_label (lit "_")) as [lines is_small].
  rewrite (bool_decide_eq_true_2 (lit "_" = lit "_")) by done.
  by rewrite orb_true_r.
Qed.

(** ** Combo renderer *)

Section Combos.

Context (self : Generator).

Lemma resolve_length (layer_idx : Z) (acts : list str) :
  length (resolve self layer_idx acts)
  = length (filter (λ k, is_Some (find_key_position self k layer_idx)) acts).
Proof.
  unfold resolve. induction acts as [|k acts IH]; [done|].
  rewrite filter_cons. simpl.
  destruct (find_key_position self k layer_idx) as [pos|].
  - rewrite decide_True by eauto. simpl. f_equal. apply IH.
  - rewrite decide_False by (by intros [? ?]). apply IH.
Qed.

(** C7: [generate_combo_visual] gives the empty string when the combo is
    declared for another layer, or has fewer than 2 tokens, or fewer than 2
    of its tokens have a position on the layer. *)
Theorem generate_combo_visual_empty (combo : Combo) (layer_idx x_offset y_offset : Z) :
  default 0 (layer combo) ≠ layer_idx
  ∨ (length (default [] (actions combo)) < 2)%nat
  ∨ (length (filter (λ k, is_Some (find_key_position self k layer_idx))
                    (default [] (actions combo))) < 2)%nat →
  generate_combo_visual self combo layer_idx x_offset y_offset = Ok [].
Proof.
  intros H. unfold generate_combo_visual.
  case_bool_decide as Hlayer; cbn [negb]; [|done].
  destruct (length (default [] (actions combo)) <? 2)%nat eqn:Hacts; [done|].
  apply Nat.ltb_ge in Hacts.
  destruct (length (resolve self layer_idx _) <? 2)%nat eqn:Hres; [done|].
  apply Nat.ltb_ge in Hres. rewrite resolve_length in Hres.
  destruct H as [H|[H|H]]; [done | lia | lia].
Qed.

End Combos.

(** ** Config loader *)

Section LayerNames.

Lemma scan_lines_inert (line : str) (rest : list str) (st : scan) :
  in_keymap st = true → inert line = true →
  scan_lines (line :: rest) st = scan_lines rest st.
Proof.
  intros Hin Hinert. unfold inert in Hinert. cbn [scan_lines].
  destruct st as [idx inkm lc nm]. cbn [in_keymap] in Hin. subst inkm.
  cbn [layer_idx in_keymap last_comment names negb].
  destruct (contains (strip line) (lit "keymap = [")); [done|].
  cbn [orb] in Hinert.
  apply andb_true_iff in Hinert as [Hinert H3].
  apply andb_true_iff in Hinert as [H1 H2].
  apply negb_true_iff in H1, H2, H3.
  by rewrite H1, H2, H3.
Qed.

Lemma scan_lines_inert_all (mid rest : list str) (st : scan) :
  in_keymap st = true → Forall (λ l, inert l = true) mid →
  scan_lines (mid ++ rest) st = scan_lines rest st.
Proof.
  intros Hin Hmid. induction Hmid as [|l mid Hl _ IH]; [done|].
  cbn [app]. by rewrite scan_lines_inert.
Qed.




End LayerNames.

(** ** Document *)

(** C3: only key labels and combo badges go through [escape_xml]; the
    keyboard name and the layer names reach the document as they are.
    Here the name [R&D] and the layer name [<Base>] appear raw, while the
    key label [a<b] of the same layout is escaped. *)
Theorem names_embedded_unescaped :
  let self := {| config := example_config;
                 layer_names := extract_layer_names example_lines ∅;
                 key_positions := ∅ |} in
  ∃ doc, generate_document self = Ok doc
    ∧ contains doc (tpl "Keyboard: R&D (Split 3") = true
    ∧ contains doc (tpl "class=~layer-title~>Layer 0: <Base></text>") = true
    ∧ contains doc (tpl "class=~key-text ~>a&lt;b</text>") = true
    ∧ escape_xml (lit "R&D") = lit "R&amp;D"
    ∧ escape_xml (lit "<Base>") = lit "&lt;Base&gt;".
Proof.
  eexists. split; [by vm_compute|].
  repeat split; by vm_compute.
Qed.

(** ** Command line *)

Section CommandLine.

Context (tomllib_load : str → option Config).

(** C2: a missing layout file ends the run with status 1, but the
    auxiliary file is never opened: when the layout file is there, parses
    and renders, the run succeeds with status 0 although the auxiliary
    file does not exist. *)
Theorem run_succeeds_without_auxiliary_file
    (argv : list str) (fs : gmap str str) :
  let toml_path := default (lit "keyboard.toml") (argv !! 1%nat) in
  let json_path := default (lit "vial.json") (argv !! 2%nat) in
  let output_path := default (lit "keyboard.svg") (argv !! 3%nat) in
  (fs !! toml_path = None → main tomllib_load argv fs = (1, fs))
  ∧ (∀ text cfg svg,
       fs !! toml_path = Some text →
       tomllib_load text = Some cfg →
       generate_document
         {| config := cfg;
            layer_names := extract_layer_names (readlines text) ∅;
            key_positions := ∅ |} = Ok svg →
       fs !! json_path = None →
       main tomllib_load argv fs = (0, <[output_path := svg]> fs)).
Proof.
  intros toml_path json_path output_path. split.
  - intros Hnone. unfold main, generate, load_config, open_read.
    fold toml_path. by rewrite Hnone.
  - intros text cfg svg Htext Hcfg Hsvg _.
    unfold main, generate, load_config, open_read.
    fold toml_path output_path. rewrite Htext. cbn.
    rewrite Hcfg. cbn. by rewrite Hsvg.
Qed.

End CommandLine.

Lemma run_succeeds_without_auxiliary_file_witness :
  ∃ svg,
    ({[ lit "keyboard.toml" := example_text ]} : gmap str str) !! lit "vial.json"
    = None
    ∧ main (λ _, Some example_config) []
        {[ lit "keyboard.toml" := example_text ]}
      = (0, <[lit "keyboard.svg" := svg]>
              {[ lit "keyboard.toml" := example_text ]}).
Proof.
  eexists. split; [by vm_compute|].
  apply (proj2 (run_succeeds_without_auxiliary_file
                  (λ _, Some example_config) []
                  {[ lit "keyboard.toml" := example_text ]})
           example_text example_config);
    by vm_compute.
Defined.

(** ** Layers of the document *)

Section Loops.

Context {A S : Type}.

(** A loop whose body keeps an invariant and never raises runs to its end. *)
Lemma for_each_inv (P : S → Prop) (l : list A) (body : S → A → result S) (s : S) :
  P s →
  (∀ s a, a ∈ l → P s → ∃ s', body s a = Ok s' ∧ P s') →
  ∃ s', for_each l body s = Ok s' ∧ P s'.
Proof.
  revert s. induction l as [|a l IH]; intros s Hs Hbody; cbn [for_each].
  - eauto.
  - destruct (Hbody s a) as (s' & Hs' & HP); [by left | done |].
    rewrite Hs'. cbn. apply IH; [done|].
    intros s1 a1 Ha1. apply Hbody. by right.
Qed.

End Loops.


Section Geometry.

Lemma float_overflow_large : 4000000 < float_overflow.
Proof. by vm_compute. Qed.

Lemma are_keys_contiguous_ok (a b : Z * Z) :
  bounded a → bounded b → ∃ c, are_keys_contiguous a b = Ok c.
Proof.
  destruct a as [x1 y1], b as [x2 y2]. unfold bounded. cbn [fst snd].
  intros [Hx1 Hy1] [Hx2 Hy2].
  unfold are_keys_contiguous, sqrt_lt.
  pose proof float_overflow_large as Hbig.
  destruct (float_overflow <=? _) eqn:Hle; [|eauto].
  apply Z.leb_le in Hle. rewrite !Z.pow_2_r in Hle. nia.
Qed.

Lemma all_contiguous_ok (ps : list (str * (Z * Z))) :
  Forall (λ p, bounded p.2) ps → ∃ c, all_contiguous ps = Ok c.
Proof.
  induction 1 as [|p1 ps Hp1 Hps IH]; [cbn; eauto|].
  destruct Hps as [|p2 ps Hp2 Hps]; [cbn; eauto|].
  cbn [all_contiguous].
  destruct (are_keys_contiguous_ok p1.2 p2.2) as [c Hc]; [done..|].
  rewrite Hc. cbn. destruct c; eauto.
Qed.

Lemma template_bounded (template : list (option (Z * Z))) (i : nat) (pos : Z * Z) :
  template = LEFT_POSITIONS ∨ template = RIGHT_POSITIONS →
  template !!! i = Some pos → bounded pos.
Proof.
  intros Ht. rewrite list_lookup_total_alt.
  destruct (template !! i) as [o|] eqn:Hi; [|done].
  cbn. intros ->. apply list_elem_of_lookup_2 in Hi.
  assert (Hall : Forall (λ o, ∀ p, o = Some p → bounded p) template).
  { destruct Ht as [-> | ->]; unfold LEFT_POSITIONS, RIGHT_POSITIONS;
      repeat (apply Forall_cons_2;
              [intros p Hp;
               first [discriminate
                     | injection Hp as <-; unfold bounded; cbn; lia]|]);
      apply Forall_nil_2. }
  rewrite Forall_forall in Hall. by apply (Hall _ Hi).
Qed.


End Geometry.

Section Grid.

Lemma py_index_nat {A} (l : list A) (i : nat) (a : A) :
  l !! i = Some a → py_index l (Z.of_nat i) = Ok a.
Proof.
  intros Hi. unfold py_index.
  assert (Hneg : (Z.of_nat i <? 0) = false) by (apply Z.ltb_ge; lia).
  rewrite Hneg. cbv zeta. rewrite Hneg.
  by rewrite Nat2Z.id, Hi.
Qed.


End Grid.

Section Blocks.

Implicit Types self : Generator.





Lemma resolve_bounded self (layer_idx : Z) (acts : list str) :
  positions_bounded self →
  Forall (λ p, bounded p.2) (resolve self layer_idx acts).
Proof.
  intros Hinv. rewrite Forall_forall. intros [k pos] Hin.
  unfold resolve in Hin. apply list_elem_of_omap in Hin as (k' & _ & Hk).
  unfold find_key_position in Hk.
  destruct (key_positions self !! layer_idx) as [m|] eqn:Hm; [|done].
  destruct (m !! k') as [pos'|] eqn:Hpos; [|done].
  cbn in Hk. injection Hk as <- <-. cbn.
  by apply (Hinv _ _ Hm k').
Qed.

Lemma generate_combo_visual_ok self (combo : Combo) (layer_idx : Z) :
  positions_bounded self →
  ∃ v, generate_combo_visual self combo layer_idx 0 0 = Ok v.
Proof.
  intros Hinv. unfold generate_combo_visual.
  destruct (negb _); [eauto|].
  destruct (_ <? 2)%nat; [eauto|].
  pose proof (resolve_bounded self layer_idx (default [] (actions combo)) Hinv)
    as Hb.
  destruct (resolve self layer_idx _) as [|[k1 [x1 y1]] [|[k2 [x2 y2]] rest]];
    [cbn; eauto..|].
  change (length _ <? 2)%nat with false. cbv iota.
  edestruct all_contiguous_ok as [c Hc]; [|rewrite Hc].
  { apply Forall_fmap. eapply Forall_impl; [exact Hb|].
    intros [k [x y]]. unfold bounded. cbn. lia. }
  cbn [mbind result_bind fmap list_fmap fst snd].
  destruct rest; [destruct c|]; eauto.
Qed.


Lemma generate_legend_ok self (y_offset : Z) :
  Forall (λ c, is_Some (actions c) ∧ is_Some (output c))
         (take 3 (combos (config self))) →
  ∃ legend, generate_legend self y_offset = Ok legend.
Proof.
  intros Hcombos. unfold generate_legend.
  edestruct (for_each_inv (λ _ : str, True) (take 3 (combos (config self))))
    as (svg & Hsvg & _); [done | | rewrite Hsvg].
  { intros svg combo Hin _. rewrite Forall_forall in Hcombos.
    destruct (Hcombos combo Hin) as [[acts ->] [out ->]]. cbn. eauto. }
  cbn [mbind result_bind].
  destruct (foldl _ _ _) as [svg' y_pos]. eauto.
Qed.

End Blocks.

Section Document.

Lemma range_lookup (n : Z) (i : nat) (x : Z) :
  range n !! i = Some x → x = Z.of_nat i.
Proof.
  unfold range. rewrite list_lookup_fmap.
  destruct (seq 0 (Z.to_nat n) !! i) as [k|] eqn:Hk; [|done].
  apply lookup_seq in Hk as [-> _]. cbn. by intros [= <-].
Qed.




End Document.

Lemma generate_combo_visual_empty_witness :
  generate_combo_visual
    {| config := example_config; layer_names := ∅; key_positions := ∅ |}
    {| actions := Some [lit "q"; lit "w"]; output := Some (lit "esc");
       layer := Some 1 |}
    0 0 0
  = Ok [].
Proof.
  apply (generate_combo_visual_empty
           {| config := example_config; layer_names := ∅; key_positions := ∅ |}).
  left. vm_compute. discriminate.
Defined.

(** * Further properties *)

(** ** XML escaping *)

Section Escaping.

Lemma replace_char (c : char) (new s : str) :
  replace [c] new s = s ≫= (λ a, if bool_decide (c = a) then new else [a]).
Proof.
  unfold replace. induction s as [|a s IH]; [done|].
  cbn [replace_from startswith length]. rewrite andb_true_r, bind_cons.
  case_bool_decide; cbn [Nat.sub]; by rewrite IH.
Qed.

Lemma escape_xml_one (a : char) : escape_xml [a] = escape_char a.
Proof.
  unfold escape_char.
  repeat (case_bool_decide; [subst a; by vm_compute|]).
  unfold escape_xml.
  change (lit "&") with [38%N]. change (lit "<") with [60%N].
  change (lit ">") with [62%N]. change (lit "'") with [39%N].
  unfold dquote. rewrite !replace_char.
  repeat (rewrite bind_singleton, bool_decide_eq_false_2 by congruence).
  done.
Qed.

Lemma escape_xml_app (s t : str) :
  escape_xml (s ++ t) = escape_xml s ++ escape_xml t.
Proof.
  unfold escape_xml.
  change (lit "&") with [38%N]. change (lit "<") with [60%N].
  change (lit ">") with [62%N]. change (lit "'") with [39%N].
  unfold dquote. rewrite !replace_char. by rewrite !bind_app.
Qed.

(** X1: [escape_xml] works character by character: the five chained
    [replace] calls come to replacing each character on its own, so an
    entity that an earlier call produced is never escaped again. *)
Theorem escape_xml_charwise (text : str) :
  escape_xml text = text ≫= escape_char.
Proof.
  induction text as [|a text IH]; [done|].
  change (a :: text) with ([a] ++ text).
  by rewrite escape_xml_app, escape_xml_one, IH.
Qed.

Lemma escape_char_no_markup (a : char) :
  Forall (λ c, c ∉ markup_chars) (escape_char a).
Proof.
  unfold escape_char, markup_chars.
  repeat (case_bool_decide;
          [apply (bool_decide_unpack _); by vm_compute|]).
  apply Forall_singleton.
  rewrite !elem_of_cons, elem_of_nil. intros [?|[?|[?|[?|[]]]]]; congruence.
Qed.

(** X2: whatever the text, what [escape_xml] returns holds none of the
    characters [<], [>], double quote and apostrophe. *)
Theorem escape_xml_no_markup (text : str) :
  Forall (λ c, c ∉ markup_chars) (escape_xml text).
Proof.
  induction text as [|a text IH]; [by vm_compute; constructor|].
  change (a :: text) with ([a] ++ text).
  rewrite escape_xml_app, escape_xml_one.
  apply Forall_app. split; [apply escape_char_no_markup | done].
Qed.

(** X3: a text without any of the five special characters comes back
    unchanged. *)
Theorem escape_xml_plain (text : str) :
  Forall (λ c, c ∉ special_chars) text → escape_xml text = text.
Proof.
  induction 1 as [|a text Ha _ IH]; [done|].
  change (a :: text) with ([a] ++ text).
  rewrite escape_xml_app, escape_xml_one, IH. cbn [app]. f_equal.
  unfold escape_char, special_chars, markup_chars in *.
  repeat (case_bool_decide;
          [subst a; exfalso; apply Ha; apply (bool_decide_unpack _);
           by vm_compute|]).
  done.
Qed.

Lemma escape_xml_plain_witness : escape_xml (lit "BSPC") = lit "BSPC".
Proof.
  apply (escape_xml_plain (lit "BSPC")).
  apply (bool_decide_unpack _). vm_compute. exact I.
Defined.

End Escaping.

(** ** Labels and keys *)

Section KeyLabels.

Lemma format_key_label_single (key : str) :
  ∃ line small, format_key_label key = ([line], small).
Proof.
  unfold format_key_label.
  destruct (_ || _); [eauto|].
  destruct (format_mt key) as [[lines small]|] eqn:Hmt.
  - unfold format_mt in Hmt.
    destruct (startswith key (lit "MT(")); [|done].
    destruct (map strip _) as [|a [|b [|c l]]]; try done.
    injection Hmt as <- <-. eauto.
  - destruct (startswith key (lit "SHIFTED(")); eauto.
Qed.

(** X4: [format_key_label] always gives exactly one display line, so
    the stacked multi-line branch of [generate_key] is never taken. *)
Theorem format_key_label_one_line (key : str) :
  length (format_key_label key).1 = 1%nat.
Proof.
  by destruct (format_key_label_single key) as (line & small & ->).
Qed.

Lemma replacements_keys_plain :
  Forall (λ kv : str * str,
            kv.1 ≠ [] ∧ kv.1 ≠ lit "_"
            ∧ startswith kv.1 (lit "MT(") = false
            ∧ startswith kv.1 (lit "SHIFTED(") = false)
         replacements_items.
Proof. apply (bool_decide_unpack _). by vm_compute. Qed.

(** X5: a token of the synonym table is shown as its replacement, and the
    compact font is chosen by the length of the replacement, not of the
    token (so [comm] gives [,] in normal font). *)
Theorem format_key_label_synonym (key v : str) :
  replacements !! key = Some v →
  format_key_label key = ([v], (3 <? length v)%nat).
Proof.
  intros Hv. pose proof Hv as Hin.
  apply elem_of_list_to_map_2 in Hin.
  pose proof replacements_keys_plain as Hall. rewrite Forall_forall in Hall.
  destruct (Hall _ Hin) as (H1 & H2 & H3 & H4). cbn [fst] in *.
  rewrite format_key_label_plain by auto using format_mt_not_mt.
  unfold dict_get. by rewrite Hv.
Qed.

Lemma format_key_label_synonym_witness :
  format_key_label (lit "comm") = ([lit ","], false).
Proof.
  apply (format_key_label_synonym (lit "comm") (lit ",")). by vm_compute.
Defined.

(** X6: a key whose token is neither blank nor the transparency marker,
    drawn without the transparent flag, is one filled rectangle in the
    colour of the layer and one text element holding the escaped label. *)
Theorem generate_key_filled (x y : Z) (label : str) (layer_idx : Z) :
  label ≠ [] → label ≠ lit "_" →
  ∃ line small,
    format_key_label label = ([line], small)
    ∧ generate_key x y label layer_idx false
      = tpl "    <rect x=~" ++ int_str x ++ tpl "~ y=~" ++ int_str y
        ++ tpl "~ width=~50~ height=~50~ rx=~6~ class=~key~ style=~fill: "
        ++ dict_get LAYER_COLORS layer_idx (lit "#f0f0f0") ++ tpl "~/>" ++ nl
        ++ tpl "    <text x=~" ++ int_str (x + 25) ++ tpl "~ y=~"
        ++ int_str (y + 30) ++ tpl "~ class=~key-text "
        ++ (if small then lit "key-small" else []) ++ tpl "~>"
        ++ escape_xml line ++ tpl "</text>" ++ nl.
Proof.
  intros H1 H2.
  destruct (format_key_label_single label) as (line & small & Hfmt).
  exists line, small. split; [done|].
  unfold generate_key. rewrite Hfmt.
  rewrite !bool_decide_eq_false_2 by done. cbn [orb].
  reflexivity.
Qed.

Lemma generate_key_filled_witness :
  ∃ line small,
    format_key_label (lit "a<b") = ([line], small)
    ∧ generate_key 620 220 (lit "a<b") 0 false
      = tpl "    <rect x=~" ++ int_str 620 ++ tpl "~ y=~" ++ int_str 220
        ++ tpl "~ width=~50~ height=~50~ rx=~6~ class=~key~ style=~fill: "
        ++ dict_get LAYER_COLORS 0 (lit "#f0f0f0") ++ tpl "~/>" ++ nl
        ++ tpl "    <text x=~" ++ int_str (620 + 25) ++ tpl "~ y=~"
        ++ int_str (220 + 30) ++ tpl "~ class=~key-text "
        ++ (if small then lit "key-small" else []) ++ tpl "~>"
        ++ escape_xml line ++ tpl "</text>" ++ nl.
Proof.
  apply (generate_key_filled 620 220 (lit "a<b") 0); by vm_compute.
Defined.

(** X7: the palette has five entries and does not cycle: a layer index
    below 0 or above 4 gets the fallback colour, which is the colour of
    layer 0. *)
Theorem layer_colour_fallback (layer_idx : Z) :
  layer_idx < 0 ∨ 4 < layer_idx →
  dict_get LAYER_COLORS layer_idx (lit "#f0f0f0") = lit "#f0f0f0"
  ∧ dict_get LAYER_COLORS 0 (lit "#f0f0f0") = lit "#f0f0f0".
Proof.
  intros Hout. split; [|by vm_compute].
  unfold dict_get, LAYER_COLORS.
  rewrite not_elem_of_list_to_map_1; [done|].
  cbn [fmap list_fmap fst]. rewrite !elem_of_cons, elem_of_nil. lia.
Qed.

Lemma layer_colour_fallback_witness :
  dict_get LAYER_COLORS 5 (lit "#f0f0f0") = lit "#f0f0f0"
  ∧ dict_get LAYER_COLORS 0 (lit "#f0f0f0") = lit "#f0f0f0".
Proof. apply (layer_colour_fallback 5). lia. Defined.

End KeyLabels.

(** ** Contiguity *)

Section Contiguity.

Lemma are_keys_contiguous_shift (a b : Z * Z) (dx dy : Z) :
  are_keys_contiguous (a.1 + dx, a.2 + dy) (b.1 + dx, b.2 + dy)
  = are_keys_contiguous a b.
Proof.
  destruct a as [x1 y1], b as [x2 y2]. unfold are_keys_contiguous.
  cbn [fst snd]. f_equal. ring.
Qed.

(** X8: the offsets [generate_combo_visual] adds to the positions do not
    change the outcome of its contiguity loop. *)
Theorem all_contiguous_offset (ps : list (str * (Z * Z))) (x_offset y_offset : Z) :
  all_contiguous
    (map (λ p : str * (Z * Z), (p.1, (p.2.1 + x_offset, p.2.2 + y_offset))) ps)
  = all_contiguous ps.
Proof.
  induction ps as [|p1 ps IH]; [done|].
  destruct ps as [|p2 ps]; [done|].
  cbn [map all_contiguous snd] in *.
  rewrite are_keys_contiguous_shift.
  destruct (are_keys_contiguous p1.2 p2.2) as [[|]|e]; cbn; [apply IH|done..].
Qed.



End Contiguity.

(** ** Loops that may raise *)

Section LoopFacts.

Context {A S : Type}.

(** What a loop that ran to its end kept. *)
Lemma for_each_preserves (P : S → Prop) (l : list A)
    (body : S → A → result S) (s s' : S) :
  for_each l body s = Ok s' → P s →
  (∀ s a s', a ∈ l → body s a = Ok s' → P s → P s') →
  P s'.
Proof.
  revert s. induction l as [|a l IH]; intros s Hrun Hs Hbody.
  - cbn in Hrun. by injection Hrun as <-.
  - cbn [for_each] in Hrun.
    destruct (body s a) as [s1|e] eqn:Hs1; [|done]. cbn in Hrun.
    apply (IH s1); [done | |].
    + eapply Hbody; [by left | done | done].
    + intros s2 b s3 Hb. apply Hbody. by right.
Qed.

(** What one iteration established and the later ones kept. *)
Lemma for_each_establishes (Q : S → Prop) (l : list A)
    (body : S → A → result S) (a : A) (s s' : S) :
  a ∈ l → for_each l body s = Ok s' →
  (∀ s s', body s a = Ok s' → Q s') →
  (∀ s b s', body s b = Ok s' → Q s → Q s') →
  Q s'.
Proof.
  intros Ha Hrun Hest Hkeep. revert s Hrun.
  induction l as [|b l IH]; intros s Hrun; [by apply elem_of_nil in Ha|].
  cbn [for_each] in Hrun.
  destruct (body s b) as [s1|e] eqn:Hs1; [|done]. cbn in Hrun.
  apply elem_of_cons in Ha as [->|Ha].
  - apply (for_each_preserves Q l body s1 s'); [done | by eapply Hest |].
    intros s2 c s3 _. apply Hkeep.
  - by apply (IH Ha s1).
Qed.

(** A loop with an iteration that raises [e] whatever the state, and
    whose iterations raise nothing else, raises [e]. *)
Lemma for_each_err (P : S → Prop) (l : list A) (body : S → A → result S)
    (a : A) (e : exn) (s : S) :
  a ∈ l → P s →
  (∀ s b s', body s b = Ok s' → P s → P s') →
  (∀ s, P s → body s a = Err e) →
  (∀ s b e', P s → body s b = Err e' → e' = e) →
  for_each l body s = Err e.
Proof.
  intros Ha Hs Hkeep Hfail Honly. revert s Hs.
  induction l as [|b l IH]; intros s Hs; [by apply elem_of_nil in Ha|].
  cbn [for_each].
  destruct (body s b) as [s1|e'] eqn:Hs1; cbn.
  - apply elem_of_cons in Ha as [->|Ha].
    + rewrite Hfail in Hs1 by done. done.
    + apply IH; [done|]. by eapply Hkeep.
  - f_equal. by eapply Honly.
Qed.

Lemma for_each_err_only (l : list A) (body : S → A → result S)
    (e0 e : exn) (s : S) :
  (∀ s a e, body s a = Err e → e = e0) →
  for_each l body s = Err e → e = e0.
Proof.
  intros Honly. revert s. induction l as [|a l IH]; intros s Hrun; [done|].
  cbn [for_each] in Hrun.
  destruct (body s a) as [s1|e'] eqn:Hs1; cbn in Hrun.
  - by eapply IH.
  - injection Hrun as <-. by eapply Honly.
Qed.

End LoopFacts.

(** ** Position mapper *)

Section PositionMap.

Implicit Types self : Generator.

Lemma template_lookup (template : list (option (Z * Z))) (i : nat) (pos : Z * Z) :
  template !!! i = Some pos → Some pos ∈ template.
Proof.
  rewrite list_lookup_total_alt.
  destruct (template !! i) as [o|] eqn:Hi; [|done].
  cbn. intros ->. by eapply list_elem_of_lookup_2.
Qed.

(** What [build_key_position_map] did when the keymap has the layer. *)
Lemma build_key_position_map_inv self self' (layer_idx : Z) :
  layer_idx < Z.of_nat (length (layout_keymap (config self))) →
  build_key_position_map self layer_idx = Ok self' →
  ∃ g m1 m2,
    py_index (layout_keymap (config self)) layer_idx = Ok g
    ∧ for_each slots (map_slot LEFT_POSITIONS 0 g) ∅ = Ok m1
    ∧ for_each slots (map_slot RIGHT_POSITIONS 6 g) m1 = Ok m2
    ∧ self' = {| config := config self; layer_names := layer_names self;
                 key_positions := <[layer_idx := m2]> (key_positions self) |}.
Proof.
  intros Hlt. unfold build_key_position_map.
  replace (Z.of_nat _ <=? layer_idx) with false
    by (symmetry; apply Z.leb_gt; lia).
  destruct (py_index _ layer_idx) as [g|] eqn:Hg; [|done].
  cbn [mbind result_bind].
  destruct (for_each slots (map_slot LEFT_POSITIONS 0 g) ∅) as [m1|] eqn:Hm1;
    [|done].
  cbn [mbind result_bind].
  destruct (for_each slots (map_slot RIGHT_POSITIONS 6 g) m1) as [m2|] eqn:Hm2;
    [|done].
  cbn [mbind result_bind]. intros [= <-]. by exists g, m1, m2.
Qed.

Lemma find_key_position_built self (layer_idx : Z) (m : gmap str (Z * Z))
    (key : str) :
  find_key_position
    {| config := config self; layer_names := layer_names self;
       key_positions := <[layer_idx := m]> (key_positions self) |}
    key layer_idx
  = m !! key.
Proof.
  unfold find_key_position. cbn [key_positions]. by rewrite lookup_insert_eq.
Qed.

Lemma map_slot_keeps_out (template : list (option (Z * Z))) (shift : nat)
    (g : list (list str)) (m m' : gmap str (Z * Z)) (slot : nat * nat) (k : str) :
  k = [] ∨ k = lit "_" →
  map_slot template shift g m slot = Ok m' → m !! k = None → m' !! k = None.
Proof.
  intros Hk. unfold map_slot. destruct slot as [row col].
  destruct (template !!! _) as [pos|]; [|by intros [= <-]].
  destruct (grid_get g row (col + shift)) as [key|]; [|done].
  cbn [mbind result_bind].
  destruct (negb _ && negb _) eqn:Hc; intros [= <-] Hm; [|done].
  apply andb_true_iff in Hc as [H1 H2].
  apply negb_true_iff, bool_decide_eq_false in H1, H2.
  rewrite lookup_insert_ne; [done|].
  destruct Hk as [-> | ->]; congruence.
Qed.

(** X10: the map [build_key_position_map] records for a layer of the
    keymap never holds the blank token or the transparency marker, so
    [find_key_position] does not resolve them. *)
Theorem blank_and_marker_have_no_position self self' (layer_idx : Z) :
  layer_idx < Z.of_nat (length (layout_keymap (config self))) →
  build_key_position_map self layer_idx = Ok self' →
  find_key_position self' [] layer_idx = None
  ∧ find_key_position self' (lit "_") layer_idx = None.
Proof.
  intros Hlt Hbuild.
  destruct (build_key_position_map_inv _ _ _ Hlt Hbuild)
    as (g & m1 & m2 & _ & Hm1 & Hm2 & ->).
  rewrite !find_key_position_built.
  assert (Hout : ∀ k, k = [] ∨ k = lit "_" → m2 !! k = None).
  { intros k Hk.
    apply (for_each_preserves (λ m, m !! k = None) _ _ _ _ Hm2).
    - apply (for_each_preserves (λ m, m !! k = None) _ _ _ _ Hm1).
      + apply lookup_empty.
      + intros m slot m' _. by apply map_slot_keeps_out.
    - intros m slot m' _. by apply map_slot_keeps_out. }
  split; apply Hout; auto.
Qed.

(** X11: [build_key_position_map] changes nothing but the map of its own
    layer: the configuration, the layer names and the positions of every
    other layer stay as they were. *)
Theorem build_key_position_map_frame self self' (layer_idx other : Z)
    (key : str) :
  build_key_position_map self layer_idx = Ok self' →
  other ≠ layer_idx →
  config self' = config self
  ∧ layer_names self' = layer_names self
  ∧ find_key_position self' key other = find_key_position self key other.
Proof.
  intros Hbuild Hne.
  destruct (decide (layer_idx < Z.of_nat (length (layout_keymap (config self)))))
    as [Hlt|Hge].
  - destruct (build_key_position_map_inv _ _ _ Hlt Hbuild)
      as (g & m1 & m2 & _ & _ & _ & ->).
    repeat split. unfold find_key_position. cbn [key_positions].
    by rewrite lookup_insert_ne.
  - unfold build_key_position_map in Hbuild.
    replace (Z.of_nat _ <=? layer_idx) with true in Hbuild
      by (symmetry; apply Z.leb_le; lia).
    by injection Hbuild as <-.
Qed.

Lemma map_slot_template (template : list (option (Z * Z))) (shift : nat)
    (g : list (list str)) (m m' : gmap str (Z * Z)) (slot : nat * nat)
    (P : Z * Z → Prop) :
  (∀ pos, Some pos ∈ template → P pos) →
  map_slot template shift g m slot = Ok m' →
  map_Forall (λ _ pos, P pos) m → map_Forall (λ _ pos, P pos) m'.
Proof.
  intros Ht. unfold map_slot. destruct slot as [row col].
  destruct (template !!! _) as [pos|] eqn:Hpos; [|by intros [= <-]].
  destruct (grid_get g row (col + shift)) as [key|]; [|done].
  cbn [mbind result_bind].
  destruct (negb _ && negb _); intros [= <-] Hm; [|done].
  apply map_Forall_insert_2; [|done].
  apply Ht. by eapply template_lookup.
Qed.

(** X12: every position recorded for a layer is a coordinate of the left
    or of the right template. *)
Theorem recorded_positions_are_template_slots self self' (layer_idx : Z)
    (key : str) (pos : Z * Z) :
  layer_idx < Z.of_nat (length (layout_keymap (config self))) →
  build_key_position_map self layer_idx = Ok self' →
  find_key_position self' key layer_idx = Some pos →
  Some pos ∈ LEFT_POSITIONS ++ RIGHT_POSITIONS.
Proof.
  intros Hlt Hbuild.
  destruct (build_key_position_map_inv _ _ _ Hlt Hbuild)
    as (g & m1 & m2 & _ & Hm1 & Hm2 & ->).
  rewrite find_key_position_built. intros Hpos.
  assert (Hall : map_Forall
                   (λ _ p, Some p ∈ LEFT_POSITIONS ++ RIGHT_POSITIONS) m2).
  { apply (for_each_preserves _ _ _ _ _ Hm2).
    - apply (for_each_preserves _ _ _ _ _ Hm1); [apply map_Forall_empty|].
      intros m slot m' _. apply map_slot_template.
      intros p Hp. apply elem_of_app. by left.
    - intros m slot m' _. apply map_slot_template.
      intros p Hp. apply elem_of_app. by right. }
  by apply (Hall key).
Qed.

Lemma map_slot_keeps_key (template : list (option (Z * Z))) (shift : nat)
    (g : list (list str)) (m m' : gmap str (Z * Z)) (slot : nat * nat) (k : str) :
  map_slot template shift g m slot = Ok m' → is_Some (m !! k) → is_Some (m' !! k).
Proof.
  unfold map_slot. destruct slot as [row col].
  destruct (template !!! _) as [pos|]; [|by intros [= <-]].
  destruct (grid_get g row (col + shift)) as [key|]; [|done].
  cbn [mbind result_bind].
  destruct (negb _ && negb _); intros [= <-] Hm; [|done].
  rewrite lookup_insert. case_decide; [eauto | done].
Qed.

Lemma map_slot_records (template : list (option (Z * Z))) (shift : nat)
    (g : list (list str)) (m m' : gmap str (Z * Z)) (row col : nat)
    (pos : Z * Z) (key : str) :
  template !!! (row * 6 + col)%nat = Some pos →
  grid_get g row (col + shift) = Ok key →
  key ≠ [] → key ≠ lit "_" →
  map_slot template shift g m (row, col) = Ok m' → is_Some (m' !! key).
Proof.
  intros Hpos Hkey H1 H2. unfold map_slot. rewrite Hpos, Hkey.
  cbn [mbind result_bind].
  rewrite !bool_decide_eq_false_2 by done. cbn [negb andb].
  intros [= <-]. rewrite lookup_insert_eq. eauto.
Qed.

(** X13: a token that is neither blank nor the transparency marker and
    sits in a slot the template has (left half: column [col]; right half:
    column [col + 6]) resolves to a position once the map of its layer
    is built. *)
Theorem token_in_slot_resolves self self' (layer_idx : Z) (g : list (list str))
    (row col : nat) (pos : Z * Z) (key : str) :
  layer_idx < Z.of_nat (length (layout_keymap (config self))) →
  build_key_position_map self layer_idx = Ok self' →
  py_index (layout_keymap (config self)) layer_idx = Ok g →
  (row, col) ∈ slots →
  (LEFT_POSITIONS !!! (row * 6 + col)%nat = Some pos
     ∧ grid_get g row col = Ok key)
  ∨ (RIGHT_POSITIONS !!! (row * 6 + col)%nat = Some pos
     ∧ grid_get g row (col + 6) = Ok key) →
  key ≠ [] → key ≠ lit "_" →
  is_Some (find_key_position self' key layer_idx).
Proof.
  intros Hlt Hbuild Hg Hslot Hat H1 H2.
  destruct (build_key_position_map_inv _ _ _ Hlt Hbuild)
    as (g' & m1 & m2 & Hg' & Hm1 & Hm2 & ->).
  assert (g' = g) as -> by congruence.
  rewrite find_key_position_built.
  destruct Hat as [[Hpos Hkey] | [Hpos Hkey]].
  - apply (for_each_preserves (λ m, is_Some (m !! key)) _ _ _ _ Hm2).
    + apply (for_each_establishes (λ m, is_Some (m !! key)) _ _ _ _ _ Hslot Hm1).
      * intros m m'. apply (map_slot_records _ _ _ _ _ _ _ pos); [done| |done..].
        by rewrite Nat.add_0_r.
      * intros m slot m'. apply map_slot_keeps_key.
    + intros m slot m' _. apply map_slot_keeps_key.
  - apply (for_each_establishes (λ m, is_Some (m !! key)) _ _ _ _ _ Hslot Hm2).
    + intros m m'. by apply (map_slot_records _ _ _ _ _ _ _ pos).
    + intros m slot m'. apply map_slot_keeps_key.
Qed.

Lemma blank_and_marker_have_no_position_witness :
  find_key_position example_built [] 0 = None
  ∧ find_key_position example_built (lit "_") 0 = None.
Proof.
  apply (blank_and_marker_have_no_position (fresh example_config ∅));
    by vm_compute.
Defined.

Lemma build_key_position_map_frame_witness :
  config example_built = config (fresh example_config ∅)
  ∧ layer_names example_built = layer_names (fresh example_config ∅)
  ∧ find_key_position example_built (lit "q") 1
    = find_key_position (fresh example_config ∅) (lit "q") 1.
Proof.
  apply (build_key_position_map_frame (fresh example_config ∅) example_built 0);
    by vm_compute.
Defined.

Lemma recorded_positions_are_template_slots_witness :
  Some (60, 40) ∈ LEFT_POSITIONS ++ RIGHT_POSITIONS.
Proof.
  apply (recorded_positions_are_template_slots
           (fresh example_config ∅) example_built 0 (lit "q"));
    by vm_compute.
Defined.

Lemma token_in_slot_resolves_witness :
  is_Some (find_key_position example_built (lit "p") 0).
Proof.
  apply (token_in_slot_resolves (fresh example_config ∅) example_built 0
           example_layer 0 4 (740, 40) (lit "p")).
  - by vm_compute.
  - by vm_compute.
  - by vm_compute.
  - apply (bool_decide_unpack _). by vm_compute.
  - right. by vm_compute.
  - by vm_compute.
  - by vm_compute.
Defined.

End PositionMap.

(** ** The two loops of [generate] *)

Section Pipeline.

Implicit Types self : Generator.

Lemma range_bounds (n x : Z) : x ∈ range n → 0 ≤ x < n.
Proof.
  intros Hx. apply list_elem_of_lookup_1 in Hx as [i Hi].
  pose proof (range_lookup _ _ _ Hi) as ->.
  unfold range in Hi. rewrite list_lookup_fmap in Hi.
  destruct (seq 0 (Z.to_nat n) !! i) as [k|] eqn:Hk; [|done].
  apply lookup_seq in Hk as [_ Hlt]. lia.
Qed.

Lemma build_key_position_map_beyond self (layer_idx : Z) :
  Z.of_nat (length (layout_keymap (config self))) ≤ layer_idx →
  build_key_position_map self layer_idx = Ok self.
Proof.
  intros Hge. unfold build_key_position_map.
  by replace (Z.of_nat _ <=? layer_idx) with true
    by (symmetry; apply Z.leb_le; lia).
Qed.

Lemma build_key_position_map_config self self' (layer_idx : Z) :
  build_key_position_map self layer_idx = Ok self' →
  config self' = config self ∧ layer_names self' = layer_names self.
Proof.
  intros Hbuild.
  destruct (decide (layer_idx < Z.of_nat (length (layout_keymap (config self)))))
    as [Hlt|Hge].
  - by destruct (build_key_position_map_inv _ _ _ Hlt Hbuild)
      as (g & m1 & m2 & _ & _ & _ & ->).
  - rewrite build_key_position_map_beyond in Hbuild by lia.
    by injection Hbuild as <-.
Qed.

Lemma build_key_position_map_bounded self self' (layer_idx : Z) :
  build_key_position_map self layer_idx = Ok self' →
  positions_bounded self → positions_bounded self'.
Proof.
  intros Hbuild Hinv.
  destruct (decide (layer_idx < Z.of_nat (length (layout_keymap (config self)))))
    as [Hlt|Hge].
  - destruct (build_key_position_map_inv _ _ _ Hlt Hbuild)
      as (g & m1 & m2 & _ & Hm1 & Hm2 & ->).
    intros l pm. cbn [key_positions]. rewrite lookup_insert.
    case_decide; [|apply Hinv]. intros [= <-].
    apply (for_each_preserves _ _ _ _ _ Hm2).
    + apply (for_each_preserves _ _ _ _ _ Hm1); [apply map_Forall_empty|].
      intros m slot m' _. apply map_slot_template.
      intros p Hp. apply list_elem_of_lookup_1 in Hp as [i Hi].
      apply (template_bounded LEFT_POSITIONS i); [by left|].
      by rewrite list_lookup_total_alt, Hi.
    + intros m slot m' _. apply map_slot_template.
      intros p Hp. apply list_elem_of_lookup_1 in Hp as [i Hi].
      apply (template_bounded RIGHT_POSITIONS i); [by right|].
      by rewrite list_lookup_total_alt, Hi.
  - rewrite build_key_position_map_beyond in Hbuild by lia.
    by injection Hbuild as <-.
Qed.

(** X14: after the first loop of [generate] no position is recorded for a
    layer index that is negative, at or beyond the length of the keymap,
    or at or beyond the declared layer count. *)
Theorem no_position_outside_keymap (cfg : Config) (names : gmap Z str) self
    (l : Z) (key : str) :
  for_each (range (layout_layers cfg)) build_key_position_map (fresh cfg names)
  = Ok self →
  l < 0 ∨ Z.of_nat (length (layout_keymap cfg)) ≤ l ∨ layout_layers cfg ≤ l →
  find_key_position self key l = None.
Proof.
  intros Hrun Hout.
  assert (Hinv : config self = cfg
                 ∧ ∀ i, is_Some (key_positions self !! i) →
                        0 ≤ i < Z.of_nat (length (layout_keymap cfg))
                        ∧ i < layout_layers cfg).
  { apply (for_each_preserves
             (λ s, config s = cfg
                   ∧ ∀ i, is_Some (key_positions s !! i) →
                          0 ≤ i < Z.of_nat (length (layout_keymap cfg))
                          ∧ i < layout_layers cfg)
             _ _ _ _ Hrun).
    - split; [done|]. intros i [m Hm]. cbn in Hm. by rewrite lookup_empty in Hm.
    - intros s a s' Ha Hbuild [Hcfg Hdom].
      apply range_bounds in Ha.
      destruct (build_key_position_map_config _ _ _ Hbuild) as [Hc _].
      split; [congruence|].
      destruct (decide (a < Z.of_nat (length (layout_keymap (config s)))))
        as [Hlt|Hge].
      + destruct (build_key_position_map_inv _ _ _ Hlt Hbuild)
          as (g & m1 & m2 & _ & _ & _ & ->).
        intros i. cbn [key_positions]. rewrite lookup_insert.
        case_decide; [subst i; rewrite Hcfg in Hlt; lia | apply Hdom].
      + rewrite build_key_position_map_beyond in Hbuild by lia.
        by injection Hbuild as <-. }
  destruct Hinv as [_ Hdom]. unfold find_key_position.
  destruct (key_positions self !! l) as [m|] eqn:Hm; [|done].
  destruct (Hdom l) as [? ?]; [eauto | lia].
Qed.

Lemma no_position_outside_keymap_witness :
  find_key_position
    match for_each (range 2) build_key_position_map (fresh example_config ∅) with
    | Ok self => self
    | Err _ => fresh example_config ∅
    end
    (lit "q") 1
  = None.
Proof.
  apply (no_position_outside_keymap example_config ∅); [by vm_compute|].
  right. left. by vm_compute.
Defined.

(** X15: with the positions that the first loop of [generate] records,
    [generate_combo_visual] at offset 0 never raises, whatever the combo
    and the layer. *)
Theorem combo_visual_never_raises_in_pipeline (cfg : Config)
    (names : gmap Z str) self (combo : Combo) (l : Z) :
  for_each (range (layout_layers cfg)) build_key_position_map (fresh cfg names)
  = Ok self →
  ∃ v, generate_combo_visual self combo l 0 0 = Ok v.
Proof.
  intros Hrun. apply generate_combo_visual_ok.
  apply (for_each_preserves positions_bounded _ _ _ _ Hrun).
  - intros i m Hm. cbn in Hm. by rewrite lookup_empty in Hm.
  - intros s a s' _. apply build_key_position_map_bounded.
Qed.

Lemma combo_visual_never_raises_in_pipeline_witness :
  ∃ v,
    generate_combo_visual
      match for_each (range 2) build_key_position_map (fresh example_config ∅)
      with
      | Ok self => self
      | Err _ => fresh example_config ∅
      end
      {| actions := Some [lit "q"; lit "p"]; output := Some (lit "<");
         layer := None |}
      0 0 0
    = Ok v.
Proof.
  apply (combo_visual_never_raises_in_pipeline example_config ∅).
  by vm_compute.
Defined.

End Pipeline.

(** ** Malformed layouts *)

Section Malformed.

Implicit Types self : Generator.

Lemma py_index_err {A} (l : list A) (i : Z) (e : exn) :
  py_index l i = Err e → e = IndexError.
Proof.
  unfold py_index. destruct (_ <? 0); [by intros [= <-]|].
  destruct (l !! _); [done|by intros [= <-]].
Qed.

Lemma grid_get_err (g : list (list str)) (row col : nat) (e : exn) :
  grid_get g row col = Err e → e = IndexError.
Proof.
  unfold grid_get. destruct (py_index g _) as [r|e'] eqn:Hr; cbn.
  - apply py_index_err.
  - intros [= <-]. by eapply py_index_err.
Qed.

Lemma py_index_nat_none {A} (l : list A) (i : nat) :
  l !! i = None → py_index l (Z.of_nat i) = Err IndexError.
Proof.
  intros Hi. unfold py_index.
  assert (Hneg : (Z.of_nat i <? 0) = false) by (apply Z.ltb_ge; lia).
  rewrite Hneg. cbv zeta. rewrite Hneg.
  by rewrite Nat2Z.id, Hi.
Qed.

(** The slot of the right half whose token a short grid lacks. *)
Lemma short_grid_missing_token (g : list (list str)) :
  short_grid g →
  ∃ row pos, (row, 2%nat) ∈ slots
    ∧ RIGHT_POSITIONS !!! (row * 6 + 2)%nat = Some pos
    ∧ grid_get g row (2 + 6) = Err IndexError.
Proof.
  intros [Hrows | (row & r & Hrow & Hr & Hlen)].
  - exists 3%nat, (620, 220). split; [|split; [done|]].
    + apply (bool_decide_unpack _). by vm_compute.
    + unfold grid_get. rewrite py_index_nat_none; [done|].
      apply lookup_ge_None. lia.
  - assert (Hpos : ∃ pos, RIGHT_POSITIONS !!! (row * 6 + 2)%nat = Some pos
                          ∧ (row, 2%nat) ∈ slots).
    { destruct row as [|[|[|[|row]]]]; [| | | |lia];
        (eexists; split; [reflexivity|]);
        apply (bool_decide_unpack _); by vm_compute. }
    destruct Hpos as (pos & Hpos & Hslot). exists row, pos.
    split; [done|]. split; [done|].
    unfold grid_get. rewrite (py_index_nat _ _ _ Hr). cbn [mbind result_bind].
    apply (py_index_nat_none r 8). apply lookup_ge_None. lia.
Qed.

Lemma draw_slot_err (template : list (option (Z * Z))) (shift : nat)
    (g : list (list str)) (layer_idx : Z) (svg : str) (slot : nat * nat) (e : exn) :
  draw_slot template shift g layer_idx svg slot = Err e → e = IndexError.
Proof.
  unfold draw_slot. destruct slot as [row col].
  destruct (template !!! _); [|done].
  destruct (grid_get g row (col + shift)) as [key|e'] eqn:Hkey; cbn; [done|].
  intros [= <-]. by eapply grid_get_err.
Qed.

Lemma map_slot_err (template : list (option (Z * Z))) (shift : nat)
    (g : list (list str)) (m : gmap str (Z * Z)) (slot : nat * nat) (e : exn) :
  map_slot template shift g m slot = Err e → e = IndexError.
Proof.
  unfold map_slot. destruct slot as [row col].
  destruct (template !!! _); [|done].
  destruct (grid_get g row (col + shift)) as [key|e'] eqn:Hkey; cbn.
  - by destruct (negb _ && negb _).
  - intros [= <-]. by eapply grid_get_err.
Qed.

Lemma build_key_position_map_err self (layer_idx : Z) (e : exn) :
  build_key_position_map self layer_idx = Err e → e = IndexError.
Proof.
  unfold build_key_position_map. destruct (_ <=? layer_idx); [done|].
  destruct (py_index _ layer_idx) as [g|e'] eqn:Hg; cbn [mbind result_bind].
  2:{ intros [= <-]. by eapply py_index_err. }
  destruct (for_each slots (map_slot LEFT_POSITIONS 0 g) ∅) as [m1|e1] eqn:Hm1;
    cbn [mbind result_bind].
  2:{ intros [= <-]. eapply for_each_err_only; [|exact Hm1].
      intros m slot e2. apply map_slot_err. }
  destruct (for_each slots (map_slot RIGHT_POSITIONS 6 g) m1) as [m2|e2] eqn:Hm2;
    cbn [mbind result_bind]; [done|].
  intros [= <-]. eapply for_each_err_only; [|exact Hm2].
  intros m slot e3. apply map_slot_err.
Qed.

Lemma build_key_position_map_short self (i : nat) (g : list (list str)) :
  layout_keymap (config self) !! i = Some g → short_grid g →
  build_key_position_map self (Z.of_nat i) = Err IndexError.
Proof.
  intros Hg Hshort. unfold build_key_position_map.
  pose proof (lookup_lt_Some _ _ _ Hg) as Hlt.
  replace (Z.of_nat _ <=? Z.of_nat i) with false
    by (symmetry; apply Z.leb_gt; lia).
  rewrite (py_index_nat _ _ _ Hg). cbn [mbind result_bind].
  destruct (for_each slots (map_slot LEFT_POSITIONS 0 g) ∅) as [m1|e1] eqn:Hm1;
    cbn [mbind result_bind].
  2:{ f_equal. eapply for_each_err_only; [|exact Hm1].
      intros m slot e2. apply map_slot_err. }
  destruct (short_grid_missing_token g Hshort) as (row & pos & Hslot & Hpos & Hget).
  rewrite (for_each_err (λ _, True) slots _ (row, 2%nat) IndexError); try done.
  - intros m _. unfold map_slot. by rewrite Hpos, Hget.
  - intros m slot e' _. apply map_slot_err.
Qed.

(** X16: [generate_layer] raises [IndexError] on a layer of the keymap
    whose grid is short: fewer than 4 rows, or one of the first 4 rows with
    fewer than 9 tokens. *)
Theorem generate_layer_short_grid self (i : nat) (y_offset : Z)
    (g : list (list str)) :
  layout_keymap (config self) !! i = Some g → short_grid g →
  generate_layer self (Z.of_nat i) y_offset = Err IndexError.
Proof.
  intros Hg Hshort. unfold generate_layer.
  pose proof (lookup_lt_Some _ _ _ Hg) as Hlt.
  replace (Z.of_nat _ <=? Z.of_nat i) with false
    by (symmetry; apply Z.leb_gt; lia).
  rewrite (py_index_nat _ _ _ Hg). cbn [mbind result_bind].
  destruct (for_each slots (draw_slot LEFT_POSITIONS 0 g (Z.of_nat i)) _)
    as [svg1|e1] eqn:Hsvg1; cbn [mbind result_bind].
  2:{ f_equal. eapply for_each_err_only; [|exact Hsvg1].
      intros svg slot e2. apply draw_slot_err. }
  destruct (short_grid_missing_token g Hshort) as (row & pos & Hslot & Hpos & Hget).
  rewrite (for_each_err (λ _, True) slots _ (row, 2%nat) IndexError); try done.
  - intros svg _. unfold draw_slot. by rewrite Hpos, Hget.
  - intros svg slot e' _. apply draw_slot_err.
Qed.

Lemma generate_layer_short_grid_witness :
  generate_layer (fresh example_short_config ∅) (Z.of_nat 0) 50
  = Err IndexError.
Proof.
  apply (generate_layer_short_grid (fresh example_short_config ∅) 0 50
           (take 3 example_layer ++ [[lit "a"; lit "b"; lit "c"]]));
    [by vm_compute|].
  right. exists 3%nat, [lit "a"; lit "b"; lit "c"].
  split; [lia|]. split; [by vm_compute | cbn; lia].
Defined.

(** X17: when one of the declared layers has a short grid, no document is
    produced: [generate] stops with [IndexError] in its first loop. *)
Theorem generate_document_short_grid (cfg : Config) (names : gmap Z str)
    (i : nat) (g : list (list str)) :
  Z.of_nat i < layout_layers cfg →
  layout_keymap cfg !! i = Some g → short_grid g →
  generate_document (fresh cfg names) = Err IndexError.
Proof.
  intros Hi Hg Hshort. unfold generate_document. cbn [config fresh].
  rewrite (for_each_err (λ s, config s = cfg) _ _ (Z.of_nat i) IndexError);
    try done.
  - unfold range. apply list_elem_of_fmap. exists i. split; [done|].
    apply list_elem_of_lookup. exists i. apply lookup_seq. lia.
  - intros s b s' Hbuild <-.
    by destruct (build_key_position_map_config _ _ _ Hbuild).
  - intros s <-. by eapply build_key_position_map_short.
  - intros s b e' _. apply build_key_position_map_err.
Qed.

Lemma generate_document_short_grid_witness :
  generate_document (fresh example_short_config ∅) = Err IndexError.
Proof.
  apply (generate_document_short_grid example_short_config ∅ 0
           (take 3 example_layer ++ [[lit "a"; lit "b"; lit "c"]]));
    [by vm_compute | by vm_compute |].
  right. exists 3%nat, [lit "a"; lit "b"; lit "c"].
  split; [lia|]. split; [by vm_compute | cbn; lia].
Defined.

(** X18: the legend needs the keys [actions] and [output] in the first
    three combos and in no other: with them it is produced, without one of
    them [generate_legend] raises [KeyError] (while [generate_combo_visual]
    reads the same keys with defaults). *)
Theorem generate_legend_needs_first_three self (y_offset : Z) :
  (Forall legend_ready (take 3 (combos (config self))) →
   ∃ legend, generate_legend self y_offset = Ok legend)
  ∧ (¬ Forall legend_ready (take 3 (combos (config self))) →
     generate_legend self y_offset = Err KeyError).
Proof.
  split; [apply generate_legend_ok|].
  intros Hnot. apply not_Forall_Exists in Hnot; [|apply _].
  apply Exists_exists in Hnot as (c & Hc & Hbad).
  unfold generate_legend.
  rewrite (for_each_err (λ _, True) _ _ c KeyError); try done.
  - intros svg _. unfold legend_ready in Hbad.
    destruct (actions c) as [acts|] eqn:Ha; [|done].
    destruct (output c) as [out|] eqn:Ho; [|done].
    exfalso. apply Hbad. rewrite Ha, Ho. split; eauto.
  - intros svg b e' _.
    destruct (actions b) as [acts|]; cbn; [|by intros [= <-]].
    destruct (output b) as [out|]; cbn; [done|by intros [= <-]].
Qed.

Lemma generate_legend_needs_first_three_witness :
  (∃ legend, generate_legend (fresh example_config ∅) 750 = Ok legend)
  ∧ generate_legend
      (fresh {| keyboard_name := lit "k"; layout_layers := 0;
                layout_keymap := [];
                combos := [ {| actions := Some [lit "q"; lit "w"];
                               output := None; layer := None |} ] |} ∅)
      50
    = Err KeyError.
Proof.
  split.
  - apply (proj1 (generate_legend_needs_first_three (fresh example_config ∅) 750)).
    repeat constructor; by eexists.
  - apply (proj2 (generate_legend_needs_first_three _ 50)).
    intros Hall. apply Forall_cons_1 in Hall as [[_ [out Hout]] _]. done.
Defined.

End Malformed.

(** ** Outcome of a run *)

Section Outcome.

Context (tomllib_load : str → option Config).


End Outcome.

(** ** Layer names *)

Section Scanning.

Implicit Types st : scan.

Lemma scan_lines_comment (comment : str) (rest : list str) st :
  in_keymap st = true → is_name_comment comment = true →
  scan_lines (comment :: rest) st
  = scan_lines rest
      {| layer_idx := layer_idx st; in_keymap := true;
         last_comment := Some (strip (drop 1 (strip comment)));
         names := names st |}.
Proof.
  intros Hin Hc. unfold is_name_comment in Hc.
  apply andb_true_iff in Hc as [Hc H3]. apply andb_true_iff in Hc as [H1 H2].
  apply negb_true_iff in H1.
  cbn [scan_lines]. rewrite H1, Hin, H2, H3. cbn [negb andb].
  rewrite bool_decide_eq_false_2; [done|].
  intros Heq. rewrite Heq in H2. by vm_compute in H2.
Qed.

(** X20: the scan ends at the first line that is exactly [[]]] inside the
    keymap section: whatever follows that line has no effect. *)
Theorem scan_stops_at_closing_bracket (pre rest : list str) (closing : str) st :
  in_keymap st = true → strip closing = lit "]" →
  scan_lines (pre ++ closing :: rest) st = scan_lines pre st.
Proof.
  intros Hin Hclose. revert st Hin.
  induction pre as [|line pre IH]; intros st Hin; cbn [app scan_lines].
  - rewrite Hclose, Hin.
    change (contains (lit "]") (lit "keymap = [")) with false.
    cbn [negb]. by rewrite bool_decide_eq_true_2.
  - destruct (contains _ _); [by apply IH|].
    rewrite Hin. cbn [negb].
    destruct (bool_decide (_ = lit "]")); [done|].
    destruct (_ && _); [by apply IH|].
    destruct (_ && _); by apply IH.
Qed.

Lemma scan_stops_at_closing_bracket_witness :
  scan_lines ([lit "  # Base"; lit "  ["] ++ lit "]" :: [lit "# Ghost"; lit "["])
    {| layer_idx := 0; in_keymap := true; last_comment := None; names := ∅ |}
  = scan_lines [lit "  # Base"; lit "  ["]
      {| layer_idx := 0; in_keymap := true; last_comment := None; names := ∅ |}.
Proof.
  apply (scan_stops_at_closing_bracket [lit "  # Base"; lit "  ["]);
    by vm_compute.
Defined.

(** What every state of the scan satisfies when the three updates of the
    loop keep it. *)
Lemma scan_lines_invariant (P : scan → Prop) (lines : list str) st :
  (∀ st, P st →
     P {| layer_idx := layer_idx st; in_keymap := true;
          last_comment := last_comment st; names := names st |}) →
  (∀ st c, P st →
     P {| layer_idx := layer_idx st; in_keymap := in_keymap st;
          last_comment := Some c; names := names st |}) →
  (∀ st c, P st → c ≠ [] →
     P {| layer_idx := layer_idx st + 1; in_keymap := in_keymap st;
          last_comment := None; names := <[layer_idx st := c]> (names st) |}) →
  P st → P (scan_lines lines st).
Proof.
  intros Hopen Hcand Hcommit. revert st.
  induction lines as [|line lines IH]; intros st Hst; cbn [scan_lines]; [done|].
  destruct (contains _ _); [by apply IH, Hopen|].
  destruct (negb _); [by apply IH|].
  destruct (bool_decide (_ = lit "]")); [done|].
  destruct (_ && _); [by apply IH, Hcand|].
  destruct (bool_decide _ && truthy _) eqn:Hc; [|by apply IH].
  apply andb_true_iff in Hc as [_ Hc].
  destruct (last_comment st) as [[|c text]|]; try done.
  by apply IH, Hcommit.
Qed.

(** X21: the names found in a layout file are keyed by the indices
    0, 1, ..., k - 1 without a gap: an opening bracket with no pending
    comment does not use up an index. *)
Theorem layer_names_are_consecutive (lines : list str) :
  ∃ k, 0 ≤ k
       ∧ ∀ i, is_Some (extract_layer_names lines ∅ !! i) ↔ 0 ≤ i < k.
Proof.
  unfold extract_layer_names.
  set (st0 := {| layer_idx := 0; in_keymap := false; last_comment := None;
                 names := ∅ |}).
  assert (Hinv : 0 ≤ layer_idx (scan_lines lines st0)
                 ∧ ∀ i, is_Some (names (scan_lines lines st0) !! i)
                        ↔ 0 ≤ i < layer_idx (scan_lines lines st0)).
  { apply (scan_lines_invariant
             (λ st, 0 ≤ layer_idx st
                    ∧ ∀ i, is_Some (names st !! i) ↔ 0 ≤ i < layer_idx st)).
    - done.
    - done.
    - intros st c [Hpos Hdom] _. cbn [layer_idx names]. split; [lia|].
      intros i. rewrite lookup_insert. case_decide.
      + subst i. split; [lia | eauto].
      + rewrite Hdom. lia.
    - cbn. split; [done|]. intros i. rewrite lookup_empty.
      split; [by intros [? ?] | lia]. }
  exists (layer_idx (scan_lines lines st0)). exact Hinv.
Qed.

(** X22: no layer is ever given the empty name: a comment that is a bare
    [#] sets an empty candidate, which the opening bracket does not
    accept. *)
Theorem layer_names_are_not_empty (lines : list str) (i : Z) (name : str) :
  extract_layer_names lines ∅ !! i = Some name → name ≠ [].
Proof.
  unfold extract_layer_names. revert i name.
  apply (scan_lines_invariant
           (λ st, ∀ i name, names st !! i = Some name → name ≠ [])).
  - done.
  - done.
  - intros st c Hst Hc i name. cbn [names]. rewrite lookup_insert.
    case_decide; [by intros [= <-] | apply Hst].
  - intros i name. cbn. by rewrite lookup_empty.
Qed.

Lemma layer_names_are_not_empty_witness : lit "<Base>" ≠ [].
Proof.
  apply (layer_names_are_not_empty example_lines 0 (lit "<Base>")).
  by vm_compute.
Defined.

(** X23: lines in front of the first line that holds [keymap = [[] are
    skipped: comments and brackets there name nothing. *)
Theorem lines_before_keymap_are_skipped (pre rest : list str)
    (layer_names : gmap Z str) :
  Forall (λ l, contains (strip l) (lit "keymap = [") = false) pre →
  extract_layer_names (pre ++ rest) layer_names
  = extract_layer_names rest layer_names.
Proof.
  intros Hpre. unfold extract_layer_names. f_equal.
  induction Hpre as [|l pre Hl _ IH]; [done|].
  cbn [app scan_lines in_keymap negb]. by rewrite Hl.
Qed.

Lemma lines_before_keymap_are_skipped_witness :
  extract_layer_names
    ([lit "# Title"; lit "["] ++ [lit "keymap = ["; lit "# Base"; lit "["]) ∅
  = extract_layer_names [lit "keymap = ["; lit "# Base"; lit "["] ∅.
Proof.
  apply (lines_before_keymap_are_skipped [lit "# Title"; lit "["]).
  repeat constructor.
Defined.

(** X24: of two single-[#] comments with only inert lines between them,
    the later one replaces the earlier one as the candidate name. *)
Theorem later_comment_replaces_candidate (c1 c2 : str) (mid rest : list str) st :
  in_keymap st = true →
  is_name_comment c1 = true → is_name_comment c2 = true →
  Forall (λ l, inert l = true) mid →
  scan_lines (c1 :: mid ++ c2 :: rest) st = scan_lines (c2 :: rest) st.
Proof.
  intros Hin H1 H2 Hmid.
  rewrite scan_lines_comment by done.
  rewrite scan_lines_inert_all by done.
  by rewrite !scan_lines_comment.
Qed.

Lemma later_comment_replaces_candidate_witness :
  scan_lines (lit "# Old" :: [lit ""] ++ lit "# New" :: [lit "["; lit "]"])
    {| layer_idx := 0; in_keymap := true; last_comment := None; names := ∅ |}
  = scan_lines (lit "# New" :: [lit "["; lit "]"])
      {| layer_idx := 0; in_keymap := true; last_comment := None; names := ∅ |}.
Proof.
  apply (later_comment_replaces_candidate (lit "# Old") (lit "# New") [lit ""]);
    try by vm_compute.
  repeat constructor.
Defined.

(** X25: the scan sees a line only through [strip]: two files whose lines
    agree after stripping (other indentation, other line ends) give the
    same names. *)
Theorem layer_names_ignore_surrounding_whitespace (lines1 lines2 : list str)
    (layer_names : gmap Z str) :
  Forall2 (λ l1 l2, strip l1 = strip l2) lines1 lines2 →
  extract_layer_names lines1 layer_names
  = extract_layer_names lines2 layer_names.
Proof.
  intros Hlines. unfold extract_layer_names. f_equal.
  generalize {| layer_idx := 0; in_keymap := false; last_comment := None;
                names := layer_names |}.
  induction Hlines as [|l1 l2 lines1 lines2 Hl _ IH]; intros st; [done|].
  cbn [scan_lines]. rewrite Hl, !IH. done.
Qed.

Lemma layer_names_ignore_surrounding_whitespace_witness :
  extract_layer_names [lit "keymap = ["; lit "    # Base   "; lit "  [ "] ∅
  = extract_layer_names [lit "keymap = ["; lit "# Base"; lit "["] ∅.
Proof.
  apply (layer_names_ignore_surrounding_whitespace
           [lit "keymap = ["; lit "    # Base   "; lit "  [ "]
           [lit "keymap = ["; lit "# Base"; lit "["]).
  repeat constructor.
Defined.

(** X26: reading the lines of a text that holds no carriage return loses
    nothing: the lines put together again are the text. *)
Theorem readlines_concat (text : str) :
  13%N ∉ text → concat (readlines text) = text.
Proof.
  intros Hcr. unfold readlines.
  enough (H : ∀ cur, concat (readlines_from cur false text) = cur ++ text)
    by apply (H []).
  induction text as [|c text IH]; intros cur; cbn [readlines_from].
  - destruct cur; cbn; [done|]. by rewrite !app_nil_r.
  - apply not_elem_of_cons in Hcr as [Hc Hcr].
    destruct (c =? 10)%N eqn:Hnl.
    + apply N.eqb_eq in Hnl as ->. cbn [concat].
      rewrite IH by done. unfold nl. by rewrite <- (assoc_L (++)).
    + replace (c =? 13)%N with false by (symmetry; apply N.eqb_neq; congruence).
      rewrite IH by done. by rewrite <- (assoc_L (++)).
Qed.

Lemma readlines_concat_witness :
  concat (readlines example_text) = example_text.
Proof.
  apply (readlines_concat example_text).
  apply (bool_decide_unpack _). by vm_compute.
Defined.

End Scanning.

(** ** Two-key combos *)

Section ComboPairs.

Context (self : Generator).


End ComboPairs.

